(** * HRSBOT: the batch resume evaluation pipeline of [app.py]

    A shallow embedding of the Streamlit script [app.py]: prompt
    construction, model-response parsing, the per-file loop with its
    exception handler, the usage log and the accepted/rejected split.

    Python text is modelled as [string] holding the text in UTF-8; what
    counts or classifies characters ([text[:500]], [str.strip],
    [str.split], [int], iterating over a text) works on the characters,
    [chars].  Case is mapped on ASCII letters only, which is all the file
    name extensions need, and the regular expressions are modelled on
    ASCII text.  Python [int] is modelled as [Z], a float as [spec_float],
    decoded JSON as the inductive [Value], a [dict] as an insertion
    ordered association list.  An
    exception is represented by its [str()], the only thing the script ever
    reads from one.  Library calls whose code is not part of the script (the
    JSON decoder, the PDF and Word readers, the HTTP exchange, the
    data-frame sort) are variables of the section [App]; the readings of
    the clock are inputs of a run. *)

From Stdlib Require Import ZArith NArith List String Ascii Bool Lia.
From Stdlib Require Import Permutation Sorted DecimalString DecimalPos.
From Stdlib Require Import Floats.SpecFloat.
Import ListNotations.

Local Open Scope Z_scope.
Local Open Scope string_scope.
Local Open Scope list_scope.

(** ** Results of calls that may raise *)

Inductive Result (A : Type) : Type :=
| Ok (a : A)
| Raise (msg : string).

Arguments Ok {A} a.
Arguments Raise {A} msg.

Definition bind {A B : Type} (r : Result A) (k : A -> Result B) : Result B :=
  match r with
  | Ok a => k a
  | Raise msg => Raise msg
  end.

Notation "'do' x <- r ; k" := (bind r (fun x => k))
  (at level 10, x name, r at level 100, k at level 200).

(** ** Python values *)

#[warnings="-register-all"]
Inductive Value : Type :=
| JNull
| JBool (b : bool)
| JInt (n : Z)
| JFloat (f : spec_float)
| JStr (s : string)
| JList (items : list Value)
| JDict (entries : list (string * Value)).

Definition Dict : Type := list (string * Value).

(** [d.get(k)] with no default: the first binding of [k]. *)
Fixpoint lookup (d : Dict) (k : string) : option Value :=
  match d with
  | [] => None
  | (k', v) :: rest => if String.eqb k' k then Some v else lookup rest k
  end.

(** [d.get(k, default)] *)
Definition get (d : Dict) (k : string) (default : Value) : Value :=
  match lookup d k with
  | Some v => v
  | None => default
  end.

(** [d.setdefault(k, v)]: binds [k] only when it is not bound yet. *)
Definition setdefault (d : Dict) (k : string) (v : Value) : Dict :=
  match lookup d k with
  | Some _ => d
  | None => d ++ [(k, v)]
  end.

(** [d[k] = v]: replaces the binding in place, or adds one at the end. *)
Fixpoint setitem (d : Dict) (k : string) (v : Value) : Dict :=
  match d with
  | [] => [(k, v)]
  | (k', v') :: rest =>
      if String.eqb k' k then (k, v) :: rest else (k', v') :: setitem rest k v
  end.

(** ** Text helpers *)

Definition nl : string := String "010"%char EmptyString.
Definition dq : string := String "034"%char EmptyString.
Definition quoted (s : string) : string := (dq ++ s ++ dq)%string.

(** [sep.join(parts)] *)
Fixpoint join (sep : string) (parts : list string) : string :=
  match parts with
  | [] => EmptyString
  | [p] => p
  | p :: rest => (p ++ sep ++ join sep rest)%string
  end.

(** [str(n)] for an [int] *)
Definition str_of_int (n : Z) : string := NilZero.string_of_int (Z.to_int n).

(** ** Characters

    A text is held in UTF-8: a character is a byte followed by its
    continuation bytes, the bytes [10xxxxxx]. *)

Definition is_continuation (c : ascii) : bool :=
  let n := nat_of_ascii c in ((128 <=? n) && (n <? 192))%nat.

(** The text starts inside a character. *)
Definition continues (s : string) : bool :=
  match s with
  | String c _ => is_continuation c
  | EmptyString => false
  end.

(** The characters of a text, in order: what iterating over a [str]
    yields. *)
Fixpoint chars (s : string) : list string :=
  match s with
  | EmptyString => []
  | String c rest =>
      match chars rest with
      | ch :: more =>
          if continues rest then String c ch :: more
          else String c EmptyString :: ch :: more
      | [] => [String c EmptyString]
      end
  end.

(** [len(text)] *)
Fixpoint len (text : string) : nat :=
  match text with
  | EmptyString => 0%nat
  | String c rest => if continues rest then len rest else S (len rest)
  end.

(** [text[:n]]: the first [n] characters. *)
Fixpoint slice_to (n : nat) (text : string) {struct text} : string :=
  match n, text with
  | S n', String c rest =>
      String c (if continues rest then slice_to n rest else slice_to n' rest)
  | _, _ => EmptyString
  end.

(** The first [n] bytes of a text. *)
Fixpoint first_bytes (n : nat) (s : string) : string :=
  match n, s with
  | S n', String c rest => String c (first_bytes n' rest)
  | _, _ => EmptyString
  end.

(** A number that is no code point, for bytes that encode no character. *)
Definition no_char : N := 0x110000%N.

(** The code point of a character. *)
Definition codepoint (ch : string) : N :=
  let low (c : ascii) := (N_of_ascii c mod 64)%N in
  let from (least : N) (cp : N) := if (least <=? cp)%N then cp else no_char in
  match ch with
  | String a EmptyString =>
      if (N_of_ascii a <? 128)%N then N_of_ascii a else no_char
  | String a (String b EmptyString) =>
      if ((192 <=? N_of_ascii a) && (N_of_ascii a <? 224))%N
      then from 0x80%N ((N_of_ascii a mod 32) * 64 + low b)%N
      else no_char
  | String a (String b (String c EmptyString)) =>
      if ((224 <=? N_of_ascii a) && (N_of_ascii a <? 240))%N
      then from 0x800%N ((N_of_ascii a mod 16) * 4096 + low b * 64 + low c)%N
      else no_char
  | String a (String b (String c (String d EmptyString))) =>
      if ((240 <=? N_of_ascii a) && (N_of_ascii a <? 248))%N
      then from 0x10000%N
             ((N_of_ascii a mod 8) * 262144 + low b * 4096 + low c * 64 + low d)%N
      else no_char
  | _ => no_char
  end.

(** ** The regular expression [\{.*\}] with [re.DOTALL]

    [upto_last_close s] is the greedy match of [.*\}] at the start of [s]:
    the longest prefix of [s] that ends with a closing brace. *)
Fixpoint upto_last_close (s : string) : option string :=
  match s with
  | EmptyString => None
  | String c rest =>
      match upto_last_close rest with
      | Some t => Some (String c t)
      | None => if Ascii.eqb c "}" then Some (String c EmptyString) else None
      end
  end.

(** [re.search(r"\{.*\}", text, re.DOTALL)]: the match at the leftmost
    position where one exists; [None] when there is none. *)
Fixpoint re_search_braces (text : string) : option string :=
  match text with
  | EmptyString => None
  | String c rest =>
      if Ascii.eqb c "{" then
        match upto_last_close rest with
        | Some body => Some (String c body)
        | None => re_search_braces rest
        end
      else re_search_braces rest
  end.

(** ** Built-in conversions *)

(** The blanks of [str.isspace] in ASCII; the class [\s] on ASCII text. *)
Definition is_space (c : ascii) : bool :=
  let n := nat_of_ascii c in
  ((9 <=? n) && (n <=? 13) || (28 <=? n) && (n <=? 32))%nat.

(** The blanks of [str.isspace] outside ASCII. *)
Definition is_wide_space (cp : N) : bool :=
  ((cp =? 0x85) || (cp =? 0xA0) || (cp =? 0x1680)
   || (0x2000 <=? cp) && (cp <=? 0x200A)
   || (cp =? 0x2028) || (cp =? 0x2029) || (cp =? 0x202F) || (cp =? 0x205F)
   || (cp =? 0x3000))%N.

(** [ch.isspace()] for a character: the blanks [str.strip] and [str.split]
    take away. *)
Definition isspace (ch : string) : bool :=
  match ch with
  | String c EmptyString => is_space c
  | _ => is_wide_space (codepoint ch)
  end.

Definition is_digit (c : ascii) : bool :=
  let n := nat_of_ascii c in ((48 <=? n) && (n <=? 57))%nat.

Definition digit_value (c : ascii) : Z := Z.of_nat (nat_of_ascii c - 48).

Fixpoint lstrip_chars (l : list string) : list string :=
  match l with
  | ch :: rest => if isspace ch then lstrip_chars rest else l
  | [] => []
  end.

Fixpoint rstrip_chars (l : list string) : list string :=
  match l with
  | [] => []
  | ch :: rest =>
      match rstrip_chars rest with
      | [] => if isspace ch then [] else [ch]
      | kept => ch :: kept
      end
  end.

(** [s.strip()] *)
Definition strip (s : string) : string :=
  join "" (lstrip_chars (rstrip_chars (chars s))).

(** The code points of the digits 0 of Unicode 14.0, the table of
    CPython 3.11; the nine code points after each are its digits 1 to 9. *)
Definition decimal_zeros : list N :=
  [ 0x30; 0x660; 0x6F0; 0x7C0; 0x966; 0x9E6; 0xA66; 0xAE6; 0xB66; 0xBE6; 0xC66;
    0xCE6; 0xD66; 0xDE6; 0xE50; 0xED0; 0xF20; 0x1040; 0x1090; 0x17E0; 0x1810;
    0x1946; 0x19D0; 0x1A80; 0x1A90; 0x1B50; 0x1BB0; 0x1C40; 0x1C50; 0xA620;
    0xA8D0; 0xA900; 0xA9D0; 0xA9F0; 0xAA50; 0xABF0; 0xFF10; 0x104A0; 0x10D30;
    0x11066; 0x110F0; 0x11136; 0x111D0; 0x112F0; 0x11450; 0x114D0; 0x11650;
    0x116C0; 0x11730; 0x118E0; 0x11950; 0x11C50; 0x11D50; 0x11DA0; 0x16A60;
    0x16AC0; 0x16B50; 0x1D7CE; 0x1D7D8; 0x1D7E2; 0x1D7EC; 0x1D7F6; 0x1E140;
    0x1E2F0; 0x1E950; 0x1FBF0 ]%N.

(** What a character is to [int]. *)
Inductive IntChar : Type :=
| Digit (d : Z)
| Blank
| Plus
| Minus
| Underscore
| Other.

(** [int] reads a decimal digit of any script as its value and skips the
    blanks of C in ASCII (not the separators 28 to 31) and every blank
    outside ASCII. *)
Definition int_char (cp : N) : IntChar :=
  match find (fun zero => (zero <=? cp) && (cp <? zero + 10))%N decimal_zeros with
  | Some zero => Digit (Z.of_N (cp - zero))
  | None =>
      if ((9 <=? cp) && (cp <=? 13) || (cp =? 32))%N then Blank
      else if (cp =? 43)%N then Plus
      else if (cp =? 45)%N then Minus
      else if (cp =? 95)%N then Underscore
      else if is_wide_space cp then Blank
      else Other
  end.

Fixpoint skip_blanks (l : list IntChar) : list IntChar :=
  match l with
  | Blank :: rest => skip_blanks rest
  | _ => l
  end.

(** Decimal digits, single underscores allowed between two digits, then
    blanks to the end: the value and the number of digits. *)
Fixpoint digits (acc count : Z) (after_digit : bool) (l : list IntChar)
  : option (Z * Z) :=
  match l with
  | [] => if after_digit then Some (acc, count) else None
  | Digit d :: rest => digits (10 * acc + d) (count + 1) true rest
  | Underscore :: rest => if after_digit then digits acc count false rest else None
  | Blank :: rest =>
      match skip_blanks rest with
      | [] => if after_digit then Some (acc, count) else None
      | _ :: _ => None
      end
  | (Plus | Minus | Other) :: _ => None
  end.

(** The longest text of digits [int] converts. *)
Definition max_str_digits : Z := 4300.

(** The characters of a text as [int] reads them. *)
Definition int_chars (s : string) : list IntChar :=
  map int_char (map codepoint (chars s)).

(** The number the digits stand for, with its sign, unless there are too
    many of them. *)
Definition signed_digits (sign : Z) (l : list IntChar) : option Z :=
  match digits 0 0 false l with
  | Some (n, count) => if (count <=? max_str_digits)%Z then Some (sign * n) else None
  | None => None
  end.

(** [int(s)] for text: blanks around, an optional sign, decimal digits;
    [None] is the [ValueError]. *)
Definition int_of_str (s : string) : option Z :=
  match skip_blanks (int_chars s) with
  | Plus :: rest => signed_digits 1 rest
  | Minus :: rest => signed_digits (-1) rest
  | body => signed_digits 1 body
  end.

(** [int(x)] for a float truncates towards zero; infinities and NaN raise. *)
Definition int_of_float (f : spec_float) : option Z :=
  match f with
  | S754_zero _ => Some 0
  | S754_finite sign m e =>
      let magnitude := Z.shiftl (Z.pos m) e in
      Some (if sign then - magnitude else magnitude)
  | S754_infinity _ | S754_nan => None
  end.

(** [int(v)]; [None] when Python raises. *)
Definition py_int (v : Value) : option Z :=
  match v with
  | JInt n => Some n
  | JBool b => Some (if b then 1 else 0)
  | JFloat f => int_of_float f
  | JStr s => int_of_str s
  | JNull | JList _ | JDict _ => None
  end.

Fixpoint all_text (items : list Value) : option (list string) :=
  match items with
  | [] => Some []
  | JStr s :: rest => option_map (cons s) (all_text rest)
  | _ :: _ => None
  end.

(** What [sep.join(v)] iterates over: the items of a list when all are
    text, the characters of a text, the keys of a dict; [None] is the
    [TypeError]. *)
Definition join_items (v : Value) : option (list string) :=
  match v with
  | JList items => all_text items
  | JStr s => Some (chars s)
  | JDict entries => Some (map fst entries)
  | JNull | JBool _ | JInt _ | JFloat _ => None
  end.

(** The words of a list of characters, [word] being the word begun so far. *)
Fixpoint split_chars (word : string) (l : list string) : list string :=
  match l with
  | [] => match word with EmptyString => [] | _ => [word] end
  | ch :: rest =>
      if isspace ch then
        match word with
        | EmptyString => split_chars EmptyString rest
        | _ => word :: split_chars EmptyString rest
        end
      else split_chars (word ++ ch) rest
  end.

(** [s.split()]: the runs of characters that are no blanks. *)
Definition split (s : string) : list string := split_chars EmptyString (chars s).

(** [len(s.strip().split())] *)
Definition word_count (s : string) : Z := Z.of_nat (List.length (split (strip s))).

(** [s.lower()] on the letters of ASCII.  Outside ASCII the only characters
    whose lower case holds a character of ASCII are U+0130 and U+212A,
    which give an [i] and a [k]: a test for a text of ASCII without these
    two letters, as the two file name extensions are, sees no difference. *)
Definition lower_char (c : ascii) : ascii :=
  let n := nat_of_ascii c in
  if ((65 <=? n) && (n <=? 90))%nat then ascii_of_nat (n + 32) else c.

Fixpoint lower (s : string) : string :=
  match s with
  | EmptyString => EmptyString
  | String c rest => String (lower_char c) (lower rest)
  end.

Definition endswith (s suffix : string) : bool :=
  (String.length suffix <=? String.length s)%nat
  && String.eqb (substring (String.length s - String.length suffix)
                           (String.length suffix) s) suffix.

(** The failures of built-in operations that can reach the handler of the
    main loop. *)
Inductive Subscript : Type :=
| Key (k : string)
| Index0.

Inductive Failure : Type :=
| BadSubscript (v : Value) (i : Subscript)   (* KeyError, IndexError, TypeError of v[i] *)
| NoAttribute (v : Value) (attr : string)    (* AttributeError of v.attr *)
| BadInt (v : Value)                         (* int(v) *)
| BadJoin (v : Value)                        (* ", ".join(v) *)
| NotText (v : Value).                       (* a response text that is no str *)

(** An uploaded file; its bytes are only read by the document libraries. *)
Module UploadedFile.
Record t : Type := mk { name : string; data : string }.
End UploadedFile.
Definition File : Type := UploadedFile.t.

Definition breakdown_fields : list string :=
  ["experience"; "skills"; "education"; "industry"].

(** One evaluated resume: a dict of [st.session_state.results]. *)
Record Row : Type := mkRow {
  filename : string;
  name : Value;
  score : Z;
  education : Value;
  experience : Value;
  skills_matched : string;
  remark : Value;
  score_breakdown : string
}.

(** A data frame: the rows with their index labels. *)
Definition DataFrame : Type := list (nat * Row).

(** The record [main] hands to [log_usage_summary]. *)
Module LogEntry.
Record t : Type := mk {
  timestamp : string;
  user_action : string;
  number_of_resumes : Z;
  jd_length_words : Z;
  errors_occurred : bool;
  success_count : Z;
  failure_count : Z;
  duration_sec : spec_float;
  error_message : string
}.

Definition keys : list string :=
  ["timestamp"; "user_action"; "number_of_resumes"; "jd_length_words";
   "errors_occurred"; "success_count"; "failure_count"; "duration_sec";
   "error_message"].
End LogEntry.

(** A line of [usage_log.csv]. *)
Inductive CsvLine : Type :=
| HeaderLine (fieldnames : list string)
| DataLine (entry : LogEntry.t).

(** What one run of the script does to the outside, in order. *)
Inductive Event : Type :=
| CallExtractText (file_name : string)
| CallPreparePrompt (resume_text : string)
| CallGemini (prompt : string)
| StError (msg : string)
| StWarning (msg : string)
| StDataframe (df : DataFrame).

(** A computation that may raise, with the events it produced. *)
Definition Traced (A : Type) : Type := list Event * Result A.

Definition call {A : Type} (ev : Event) (r : Result A) : Traced A := ([ev], r).

Definition quiet {A : Type} (r : Result A) : Traced A := ([], r).

Definition then_ {A B : Type} (m : Traced A) (k : A -> Traced B) : Traced B :=
  match m with
  | (evs, Ok a) => let (evs', r) := k a in (evs ++ evs', r)
  | (evs, Raise msg) => (evs, Raise msg)
  end.

Notation "x <~ m ; k" := (then_ m (fun x => k))
  (at level 10, m at level 100, k at level 200, only parsing).

(** What the widgets and the environment supply to one run of the script. *)
Record Inputs : Type := mkInputs {
  api_key : string;
  jd : string;
  experience_weight : Z;
  skills_weight : Z;
  education_weight : Z;
  industry_weight : Z;
  remark_tone : string;
  uploaded_files : list File;
  analyze_pressed : bool;       (* st.button("Analyze Resumes") *)
  now_iso : string;             (* datetime.now().isoformat() *)
  elapsed : spec_float          (* round(time.time() - start_time, 2) *)
}.

(** What outlives a run: the session's result list ([None] before the key
    is set), the log file ([None] while it does not exist), and the events
    so far. *)
Record Session : Type := mkSession {
  session_results : option (list Row);
  usage_log : option (list CsvLine);
  events : list Event
}.

(** The state of the loop over the uploaded files. *)
Record Batch : Type := mkBatch {
  results : list Row;
  success_count : Z;
  failure_count : Z;
  error_messages : list string;
  batch_events : list Event
}.

(** ** Regular expressions

    The constructs the patterns of [extract_comparison_data] are made of,
    with the matching order of the library: a sequence, an ordered choice,
    a greedy repetition of a character class that gives characters back
    when what follows fails, and numbered groups.  [\d] and [\s] are taken
    as the ASCII classes and case is folded on ASCII letters only, which is
    how the library treats ASCII text. *)

Inductive Regex : Type :=
| Empty
| Char (ok : ascii -> bool)
| Many (ok : ascii -> bool)
| Seq (r1 r2 : Regex)
| Alt (r1 r2 : Regex)
| Group (i : nat) (r : Regex).

Definition Captures : Type := list (nat * string).

(** [many ok k s]: as many characters of the class as there are, then [k];
    one character fewer each time [k] fails. *)
Fixpoint many {A : Type} (ok : ascii -> bool) (k : string -> option A) (s : string)
  : option A :=
  match s with
  | String c rest =>
      if ok c then
        match many ok k rest with
        | Some x => Some x
        | None => k s
        end
      else k s
  | EmptyString => k s
  end.

(** [run r s caps k]: the first way, in the order of the library, to match
    [r] at the start of [s] such that [k] accepts what is left and the
    groups. *)
Fixpoint run {A : Type} (r : Regex) (s : string) (caps : Captures)
    (k : string -> Captures -> option A) : option A :=
  match r with
  | Empty => k s caps
  | Char ok =>
      match s with
      | String c rest => if ok c then k rest caps else None
      | EmptyString => None
      end
  | Many ok => many ok (fun rest => k rest caps) s
  | Seq r1 r2 => run r1 s caps (fun rest caps' => run r2 rest caps' k)
  | Alt r1 r2 =>
      match run r1 s caps k with
      | Some x => Some x
      | None => run r2 s caps k
      end
  | Group i r1 =>
      run r1 s caps
          (fun rest caps' =>
             k rest ((i, first_bytes (String.length s - String.length rest) s) :: caps'))
  end.

(** [re.search]: the match at the leftmost position that has one. *)
Fixpoint search (r : Regex) (s : string) : option Captures :=
  match run r s [] (fun _ caps => Some caps) with
  | Some caps => Some caps
  | None =>
      match s with
      | String _ rest => search r rest
      | EmptyString => None
      end
  end.

(** [m.group(i)] *)
Fixpoint group (i : nat) (caps : Captures) : string :=
  match caps with
  | [] => EmptyString
  | (j, text) :: rest => if Nat.eqb j i then text else group i rest
  end.

Definition plus (ok : ascii -> bool) : Regex := Seq (Char ok) (Many ok).
Definition opt (r : Regex) : Regex := Alt r Empty.

(** The text [w], case ignored. *)
Fixpoint ilit (w : string) : Regex :=
  match w with
  | EmptyString => Empty
  | String c rest => Seq (Char (fun x => Ascii.eqb (lower_char x) (lower_char c))) (ilit rest)
  end.

(** [(\d+)\s*(?:to|–|-)\s*(\d+)\s*years] *)
Definition exp_range_re : Regex :=
  Seq (Group 1 (plus is_digit))
    (Seq (Many is_space)
       (Seq (Alt (ilit "to") (Alt (ilit "–") (ilit "-")))
          (Seq (Many is_space)
             (Seq (Group 2 (plus is_digit))
                (Seq (Many is_space) (ilit "years")))))).

(** [(\d+\+?\s*years?)] *)
Definition exp_match_re : Regex :=
  Group 1
    (Seq (plus is_digit)
       (Seq (opt (Char (Ascii.eqb "+")))
          (Seq (Many is_space)
             (Seq (ilit "year") (opt (ilit "s")))))).

(** [qualification\s*[:\-]?\s*([^\n,]+)] *)
Definition edu_re : Regex :=
  Seq (ilit "qualification")
    (Seq (Many is_space)
       (Seq (opt (Char (fun c => Ascii.eqb c ":" || Ascii.eqb c "-")))
          (Seq (Many is_space)
             (Group 1 (plus (fun c => negb (Ascii.eqb c "010" || Ascii.eqb c ","))))))).

(** ** JD summary extraction *)

Fixpoint startswith (s w : string) : bool :=
  match w, s with
  | EmptyString, _ => true
  | String c w', String x s' => Ascii.eqb x c && startswith s' w'
  | String _ _, EmptyString => false
  end.

(** [needle in text] *)
Fixpoint contains (needle text : string) : bool :=
  startswith text needle
  || match text with
     | String _ rest => contains needle rest
     | EmptyString => false
     end.

Definition common_skills : list string :=
  [ "python"; "sql"; "excel"; "tableau"; "power bi"; "machine learning";
    "marketing"; "branding"; "data analysis"; "communication"; "leadership";
    "sales"; "negotiation"; "strategy"; "presentation"; "problem-solving" ].

(** The three texts of the summary: experience, skills, qualification. *)
Definition extract_comparison_data (jd_text : string) : string * string * string :=
  let experience :=
    match search exp_range_re jd_text with
    | Some exp_range =>
        (group 1 exp_range ++ " to " ++ group 2 exp_range ++ " years")%string
    | None =>
        match search exp_match_re jd_text with
        | Some exp_match => group 1 exp_match
        | None => "Not specified"
        end
    end in
  let qualification :=
    match search edu_re jd_text with
    | Some edu_match => strip (group 1 edu_match)
    | None => "Not specified"
    end in
  let jd_lower := lower jd_text in
  let skills_found := filter (fun skill => contains skill jd_lower) common_skills in
  let skills :=
    match skills_found with
    | [] => "Not specified"
    | _ :: _ => join ", " skills_found
    end in
  (experience, skills, qualification).

(** ** Score colour *)

(** The bare [except] turns every failure of [int] into the empty style. *)
Definition highlight_score (val : Value) : string :=
  match py_int val with
  | Some v =>
      if (80 <=? v)%Z then "background-color: lightgreen"
      else if (60 <=? v)%Z then "background-color: khaki"
      else "background-color: lightcoral"
  | None => ""
  end.

(** ** A small world to run the script in

    Concrete stand-ins for the library calls, used to evaluate the model on
    examples: a decoder for the fragment of JSON without escapes and
    fractions, canned document readers and a canned HTTP exchange, and a
    descending insertion sort. *)

Definition is_blank (c : ascii) : bool :=
  let n := nat_of_ascii c in ((n =? 32) || (n =? 9) || (n =? 10) || (n =? 13))%nat.

Fixpoint skip_blank (s : string) : string :=
  match s with
  | String c rest => if is_blank c then skip_blank rest else s
  | EmptyString => EmptyString
  end.

(** The text up to the closing quote, and what follows it. *)
Fixpoint read_text (s : string) : option (string * string) :=
  match s with
  | EmptyString => None
  | String c rest =>
      if Ascii.eqb c "034" then Some (EmptyString, rest)
      else if Ascii.eqb c "\" then None
      else match read_text rest with
           | Some (t, after) => Some (String c t, after)
           | None => None
           end
  end.

Fixpoint read_digits (acc : Z) (s : string) : Z * string :=
  match s with
  | String c rest =>
      if is_digit c then read_digits (10 * acc + digit_value c) rest else (acc, s)
  | EmptyString => (acc, s)
  end.

Definition read_int (s : string) : option (Z * string) :=
  match s with
  | String "-" (String c rest) =>
      if is_digit c then
        let (n, after) := read_digits 0 (String c rest) in Some (- n, after)
      else None
  | String c _ =>
      if is_digit c then Some (read_digits 0 s) else None
  | EmptyString => None
  end.

Fixpoint decode_value (fuel : nat) (s : string) {struct fuel} : option (Value * string) :=
  match fuel with
  | O => None
  | S n =>
      match skip_blank s with
      | String "{" rest =>
          match skip_blank rest with
          | String "}" after => Some (JDict [], after)
          | members =>
              match decode_members n members with
              | Some (d, after) => Some (JDict d, after)
              | None => None
              end
          end
      | String "[" rest =>
          match skip_blank rest with
          | String "]" after => Some (JList [], after)
          | items =>
              match decode_items n items with
              | Some (l, after) => Some (JList l, after)
              | None => None
              end
          end
      | String "034" rest =>
          match read_text rest with
          | Some (t, after) => Some (JStr t, after)
          | None => None
          end
      | String "t" (String "r" (String "u" (String "e" after))) =>
          Some (JBool true, after)
      | String "f" (String "a" (String "l" (String "s" (String "e" after)))) =>
          Some (JBool false, after)
      | String "n" (String "u" (String "l" (String "l" after))) =>
          Some (JNull, after)
      | number =>
          match read_int number with
          | Some (z, after) => Some (JInt z, after)
          | None => None
          end
      end
  end
with decode_members (fuel : nat) (s : string) {struct fuel} : option (Dict * string) :=
  match fuel with
  | O => None
  | S n =>
      match skip_blank s with
      | String "034" rest =>
          match read_text rest with
          | Some (k, after_key) =>
              match skip_blank after_key with
              | String ":" after_colon =>
                  match decode_value n after_colon with
                  | Some (v, after_value) =>
                      match skip_blank after_value with
                      | String "}" after => Some ([(k, v)], after)
                      | String "," more =>
                          match decode_members n more with
                          | Some (d, after) =>
                              Some ((k, get d k v)
                                    :: filter (fun p => negb (String.eqb (fst p) k)) d,
                                    after)
                          | None => None
                          end
                      | _ => None
                      end
                  | None => None
                  end
              | _ => None
              end
          | None => None
          end
      | _ => None
      end
  end
with decode_items (fuel : nat) (s : string) {struct fuel} : option (list Value * string) :=
  match fuel with
  | O => None
  | S n =>
      match decode_value n s with
      | Some (v, after_value) =>
          match skip_blank after_value with
          | String "]" after => Some ([v], after)
          | String "," more =>
              match decode_items n more with
              | Some (l, after) => Some (v :: l, after)
              | None => None
              end
          | _ => None
          end
      | None => None
      end
  end.

Definition decode_json (s : string) : Result Value :=
  match decode_value (2 * String.length s + 2) s with
  | Some (v, after) =>
      match skip_blank after with
      | EmptyString => Ok v
      | _ => Raise "Extra data"
      end
  | None => Raise "Expecting value"
  end.

Definition plain_describe (f : Failure) : string :=
  match f with
  | BadSubscript _ (Key k) => ("lookup of '" ++ k ++ "' failed")%string
  | BadSubscript _ Index0 => "lookup of item 0 failed"
  | NoAttribute _ attr => ("object has no attribute '" ++ attr ++ "'")%string
  | BadInt _ => "cannot convert to int"
  | BadJoin _ => "cannot join"
  | NotText _ => "expected string"
  end.

Definition plain_repr (v : Value) : string := "<value>".

(** A reader that takes the bytes of the upload for its one page (or
    paragraph) and refuses an empty upload. *)
Definition canned_reader (f : File) : Result (list string) :=
  match UploadedFile.data f with
  | EmptyString => Raise "cannot open empty document"
  | text => Ok [text]
  end.

(** An exchange that answers every prompt with the same text. *)
Definition canned_post (reply : string) (prompt api_key : string) : Result Value :=
  Ok (JDict [("candidates",
              JList [JDict [("content",
                             JDict [("parts", JList [JDict [("text", JStr reply)]])])]])]).

(** A decoder that answers every text with the same value. *)
Definition canned_loads (v : Value) (text : string) : Result Value := Ok v.

(** Insertion into a list of (key, position) pairs in descending key
    order, before the pairs with an equal key. *)
Fixpoint insert_desc (k : Z) (i : nat) (l : list (Z * nat)) : list (Z * nat) :=
  match l with
  | [] => [(k, i)]
  | (k', i') :: rest =>
      if (k' <=? k)%Z then (k, i) :: l else (k', i') :: insert_desc k i rest
  end.

(** A descending sort, from the last key to the first: equal keys stay in
    the order of the input. *)
Definition argsort_stable (keys : list Z) : list nat :=
  map snd (fold_right (fun p acc => insert_desc (fst p) (snd p) acc) []
                      (combine keys (seq 0 (List.length keys)))).

(** A no-break space, U+00A0, and a file separator, the control character
    28. *)
Definition nbsp : string := String "194" (String "160" EmptyString).
Definition file_separator : string := String "028" EmptyString.

(** [n * s] *)
Fixpoint repeat_text (n : nat) (s : string) : string :=
  match n with
  | O => EmptyString
  | S m => (s ++ repeat_text m s)%string
  end.

(** Three uploads, the second in a format the script does not read, and
    the inputs of a run over them. *)
Definition resume_a : File := UploadedFile.mk "a.pdf" "Ten years in paints.".
Definition resume_b : File := UploadedFile.mk "b.txt" "Plain text resume.".
Definition resume_c : File := UploadedFile.mk "c.docx" "Five years in FMCG.".

Definition inputs_for (weight_for_industry : Z) (files : list File) : Inputs :=
  {| api_key := "key";
     jd := "Sales manager, paints";
     experience_weight := 40;
     skills_weight := 20;
     education_weight := 10;
     industry_weight := weight_for_industry;
     remark_tone := "Blunt";
     uploaded_files := files;
     analyze_pressed := true;
     now_iso := "2024-01-01T00:00:00";
     elapsed := S754_zero false |}.

(** The same inputs on a rerun of the script without the button. *)
Definition rerun_of (inp : Inputs) : Inputs :=
  {| api_key := api_key inp; jd := jd inp;
     experience_weight := experience_weight inp; skills_weight := skills_weight inp;
     education_weight := education_weight inp; industry_weight := industry_weight inp;
     remark_tone := remark_tone inp; uploaded_files := uploaded_files inp;
     analyze_pressed := false; now_iso := now_iso inp; elapsed := elapsed inp |}.

(** The same inputs with another job description. *)
Definition with_jd (text : string) (inp : Inputs) : Inputs :=
  {| api_key := api_key inp; jd := text;
     experience_weight := experience_weight inp; skills_weight := skills_weight inp;
     education_weight := education_weight inp; industry_weight := industry_weight inp;
     remark_tone := remark_tone inp; uploaded_files := uploaded_files inp;
     analyze_pressed := analyze_pressed inp; now_iso := now_iso inp;
     elapsed := elapsed inp |}.

Definition new_session : Session :=
  {| session_results := None; usage_log := None; events := [] |}.

(** The row the example response gives for a file. *)
Definition example_row (file_name : string) : Row :=
  {| filename := file_name; name := JStr "A"; score := 77;
     education := JStr "N/A"; experience := JStr "N/A"; skills_matched := "";
     remark := JStr "N/A"; score_breakdown := "Exp: 0, Skills: 0, Edu: 0, Ind: 0" |}.

(** [{"name":"A","score":"high"}] *)
Definition non_numeric_response : string :=
  ("{" ++ quoted "name" ++ ":" ++ quoted "A" ++ "," ++ quoted "score" ++ ":"
   ++ quoted "high" ++ "}")%string.

(** [{"score":" 77 "}] *)
Definition text_score_response : string :=
  ("{" ++ quoted "score" ++ ":" ++ quoted " 77 " ++ "}")%string.

(** [see {"score_breakdown":5} above] *)
Definition flat_breakdown_response : string :=
  ("see {" ++ quoted "score_breakdown" ++ ":5} above")%string.

(** ** Vocabulary of the statements *)

Fixpoint occurs (c : ascii) (s : string) : bool :=
  match s with
  | EmptyString => false
  | String c' rest => Ascii.eqb c' c || occurs c rest
  end.

(** The text has an opening brace with a closing brace somewhere after it. *)
Definition has_brace_span (text : string) : Prop :=
  exists a b c, text = (a ++ "{" ++ b ++ "}" ++ c)%string.

(** [needle] occurs in [text] as it is. *)
Definition embeds (needle text : string) : Prop :=
  exists before after, text = (before ++ needle ++ after)%string.

(** The data rows of the log file. *)
Definition data_lines (log_file : option (list CsvLine)) : list LogEntry.t :=
  match log_file with
  | None => []
  | Some lines =>
      flat_map (fun line => match line with
                            | HeaderLine _ => []
                            | DataLine entry => [entry]
                            end) lines
  end.

(** The events of processing a resume: extraction, prompt construction and
    the call of the model. *)
Definition is_processing (ev : Event) : bool :=
  match ev with
  | CallExtractText _ | CallPreparePrompt _ | CallGemini _ => true
  | StError _ | StWarning _ | StDataframe _ => false
  end.

(** What [sort_values] guarantees for a score column whatever the sorting
    algorithm: the positions of the column, each once, with the scores
    they point to in descending order.  The script passes no [kind], so
    the algorithm is the default of the library; the order it gives to
    equal scores is not part of this contract. *)
Definition sorts_descending (argsort : list Z -> list nat) : Prop :=
  forall keys,
    Permutation (argsort keys) (seq 0 (List.length keys))
    /\ StronglySorted Z.ge (map (fun i => nth i keys 0) (argsort keys)).

(** A row with a file name and a score, the other fields at their defaults. *)
Definition scored (file_name : string) (n : Z) : Row :=
  {| filename := file_name; name := JStr "N/A"; score := n;
     education := JStr "N/A"; experience := JStr "N/A"; skills_matched := "";
     remark := JStr "N/A"; score_breakdown := "Exp: 0, Skills: 0, Edu: 0, Ind: 0" |}.

Definition four_rows : list Row :=
  [scored "a.pdf" 90; scored "b.pdf" 60; scored "c.pdf" 59; scored "d.pdf" 60].

(** A session that holds the row of an earlier run. *)
Definition used_session : Session :=
  {| session_results := Some [scored "old.pdf" 50]; usage_log := None; events := [] |}.

(** Every character of the text is in the class. *)
Fixpoint all_chars (ok : ascii -> bool) (s : string) : bool :=
  match s with
  | EmptyString => true
  | String c rest => ok c && all_chars ok rest
  end.

Definition is_ascii (c : ascii) : bool := (nat_of_ascii c <? 128)%nat.

(** The blanks [int] skips in ASCII text: those of C. *)
Definition is_int_blank (c : ascii) : bool :=
  let n := nat_of_ascii c in ((9 <=? n) && (n <=? 13) || (n =? 32))%nat.

(** A character of one byte, and a text of ASCII as its characters. *)
Definition single (c : ascii) : string := String c EmptyString.

Definition singles (s : string) : list string := map single (list_ascii_of_string s).

Definition ascii_chars (l : list string) : Prop :=
  Forall (fun ch => exists c, ch = single c /\ is_ascii c = true) l.

(** A word of ASCII: not empty, no blank in it. *)
Definition is_word (w : string) : Prop :=
  w <> "" /\ all_chars (fun c => is_ascii c && negb (is_space c)) w = true.

(** A gap of ASCII: not empty, blanks only. *)
Definition is_gap (gap : string) : Prop :=
  gap <> "" /\ all_chars is_space gap = true.

(** Words written one after the other, each after its own gap. *)
Fixpoint gapped (rest : list (string * string)) : string :=
  match rest with
  | [] => ""
  | (gap, w) :: more => gap ++ w ++ gapped more
  end.

(** The names [extract_text] was called with, the prompts sent to the
    model and the errors shown, in order. *)
Definition extract_calls (evs : list Event) : list string :=
  flat_map (fun ev => match ev with CallExtractText n => [n] | _ => [] end) evs.

Definition gemini_calls (evs : list Event) : list string :=
  flat_map (fun ev => match ev with CallGemini prompt => [prompt] | _ => [] end) evs.

Definition errors_shown (evs : list Event) : list string :=
  flat_map (fun ev => match ev with StError msg => [msg] | _ => [] end) evs.

(** The style [highlight_score] gives to the score cell of a row. *)
Definition cell_style (r : Row) : string := highlight_score (JInt (score r)).

(** The text is empty or starts with a character outside the class. *)
Definition stops (ok : ascii -> bool) (s : string) : bool :=
  match s with
  | EmptyString => true
  | String c _ => negb (ok c)
  end.

(** The three parts of the summary of a job description. *)
Definition jd_experience (jd_text : string) : string :=
  fst (fst (extract_comparison_data jd_text)).
Definition jd_skills (jd_text : string) : string :=
  snd (fst (extract_comparison_data jd_text)).
Definition jd_qualification (jd_text : string) : string :=
  snd (extract_comparison_data jd_text).

(** The response of the model used as an example:
    [noise {"name":"A","score":77} trailing] *)
Definition example_response : string :=
  ("noise {" ++ quoted "name" ++ ":" ++ quoted "A" ++ "," ++ quoted "score"
   ++ ":77} trailing")%string.

Definition example_span : string :=
  ("{" ++ quoted "name" ++ ":" ++ quoted "A" ++ "," ++ quoted "score" ++ ":77}")%string.

Definition zero_breakdown : Dict :=
  [("experience", JInt 0); ("skills", JInt 0); ("education", JInt 0);
   ("industry", JInt 0)].

Section App.

(** *** Library calls and collaborators *)

(** [json.loads] *)
Variable json_loads : string -> Result Value.
(** [str(e)] for the exception of a failing built-in operation *)
Variable describe : Failure -> string.
(** [str(v)] for floats, lists and dicts *)
Variable repr : Value -> string.
(** the page texts [fitz] reads from a PDF upload *)
Variable pdf_page_texts : File -> Result (list string).
(** the paragraph texts [Document] reads from a Word upload *)
Variable docx_paragraphs : File -> Result (list string).
(** [requests.post], [raise_for_status], [response.json()] for a prompt and
    an API key *)
Variable post_generate : string -> string -> Result Value.
(** the row order [sort_values(by="score", ascending=False)] gives to a
    score column: for each place of the sorted frame, the position the row
    had before *)
Variable argsort_desc : list Z -> list nat.

(** *** File extraction *)

Definition extract_pdf_text (uploaded_file : File) : Result string :=
  do pages <- pdf_page_texts uploaded_file;
  Ok (join "" pages).

Definition extract_docx_text (uploaded_file : File) : Result string :=
  match docx_paragraphs uploaded_file with
  | Ok paragraphs => Ok (join nl paragraphs)
  | Raise e => Raise ("Error reading Word document: " ++ e)%string
  end.

Definition extract_text (uploaded_file : File) : Result string :=
  if endswith (lower (UploadedFile.name uploaded_file)) ".pdf" then
    extract_pdf_text uploaded_file
  else if endswith (lower (UploadedFile.name uploaded_file)) ".docx" then
    extract_docx_text uploaded_file
  else Raise "Unsupported file format".

(** *** API call *)

(** [v[i]] *)
Definition getitem (v : Value) (i : Subscript) : Result Value :=
  match v, i with
  | JDict d, Key k =>
      match lookup d k with
      | Some x => Ok x
      | None => Raise (describe (BadSubscript v i))
      end
  | JList (x :: _), Index0 => Ok x
  | JStr s, Index0 =>
      match chars s with
      | first :: _ => Ok (JStr first)
      | [] => Raise (describe (BadSubscript v i))
      end
  | _, _ => Raise (describe (BadSubscript v i))
  end.

Definition get_gemini_response (prompt api_key : string) : Result Value :=
  do body <- post_generate prompt api_key;
  do candidates <- getitem body (Key "candidates");
  do candidate <- getitem candidates Index0;
  do content <- getitem candidate (Key "content");
  do parts <- getitem content (Key "parts");
  do part <- getitem parts Index0;
  getitem part (Key "text").

(** *** Prompt *)

(** [str(v)], as an f-string renders a value *)
Definition py_str (v : Value) : string :=
  match v with
  | JInt n => str_of_int n
  | JStr s => s
  | JBool true => "True"
  | JBool false => "False"
  | JNull => "None"
  | JFloat _ | JList _ | JDict _ => repr v
  end.

Definition tone_instruction : Dict :=
  [("Professional", JStr "Use a neutral and formal tone.");
   ("Critical", JStr "Be sharply evaluative, pointing out weaknesses clearly.");
   ("Blunt", JStr "Give a direct, no-nonsense assessment without sugarcoating.")].

(** The lines of the template between the last weight and the tone
    instruction. *)
Definition rules_and_format : list string :=
  [ "";
    "Other Rules:";
    "- Deduct 10% if experience < 2 years.";
    "- Direct REJECTION if job-hopping <2 years occurred more than twice.";
    "- Score 0 if working in or ex-JSW, Dulux, Akzo Nobel, Birla Opus.";
    "- For evaluating colleges/universities use NIRF ranking.";
    "- DO NOT reject candidates for working in Asian Paints.";
    "";
    "Return ONLY JSON in this format:";
    "{";
    "  " ++ quoted "name" ++ ": " ++ quoted "Full name" ++ ",";
    "  " ++ quoted "score" ++ ": Final score out of 100,";
    "  " ++ quoted "score_breakdown" ++ ": {";
    "      " ++ quoted "experience" ++ ": score_from_experience,";
    "      " ++ quoted "skills" ++ ": score_from_skills,";
    "      " ++ quoted "education" ++ ": score_from_education,";
    "      " ++ quoted "industry" ++ ": score_from_industry";
    "  },";
    "  " ++ quoted "education" ++ ": " ++ quoted "Degree and college" ++ ",";
    "  " ++ quoted "experience" ++ ": "
      ++ quoted "Total relevant years of experience in the given field in JD (e.g. paints/FMCG/chemicals), plus role-wise company breakdown"
      ++ ",";
    "  " ++ quoted "skills_matched" ++ ": [" ++ quoted "skill1" ++ ", "
      ++ quoted "skill2" ++ "],";
    "  " ++ quoted "remark" ++ ": "
      ++ quoted "30-word summary on fitment and verdict about why they are either Accepted OR Rejected";
    "}";
    "";
    "Remark Instructions:" ]%string.

Definition prepare_prompt (resume_text jd_text : string) (weights : Dict)
    (remark_tone : string) : Result string :=
  do w_experience <- getitem (JDict weights) (Key "experience");
  do w_skills <- getitem (JDict weights) (Key "skills");
  do w_education <- getitem (JDict weights) (Key "education");
  do w_industry <- getitem (JDict weights) (Key "industry");
  Ok (join nl
        ([ "";
           "You are acting as a professional HR Manager at JSW Paints.";
           "";
           "Evaluate the following resume against the job description.";
           "";
           "Scoring Logic:";
           "1. Experience Match - " ++ py_str w_experience ++ "%";
           "2. Skill Match - " ++ py_str w_skills ++ "%";
           "3. Education Quality - " ++ py_str w_education ++ "%";
           "4. Industry relevance - " ++ py_str w_industry ++ "%" ]%string
         ++ rules_and_format
         ++ [ "- " ++ py_str (get tone_instruction remark_tone
                                  (JStr "Use a professional tone."));
              "";
              "Resume:";
              resume_text;
              "";
              "Job Description:";
              jd_text;
              "" ]%string)).

(** *** JSON parsing *)

Definition unparsable (text : string) : string :=
  ("❌ Could not parse JSON from Gemini:" ++ nl ++ slice_to 500 text ++ "...")%string.

Definition complete_breakdown (sb : Dict) : Dict :=
  fold_left (fun sb field => setdefault sb field (JInt 0)) breakdown_fields sb.

(** Every exception of the [try] block (no match, a decoding error, a value
    without [get] or [setdefault]) is replaced by the [ValueError] of the
    handler. *)
Definition parse_json_response (text : string) : Result Dict :=
  match re_search_braces text with
  | None => Raise (unparsable text)
  | Some json_str =>
      match json_loads json_str with
      | Ok (JDict parsed) =>
          match get parsed "score_breakdown" (JDict []) with
          | JDict sb =>
              Ok (setitem parsed "score_breakdown" (JDict (complete_breakdown sb)))
          | _ => Raise (unparsable text)
          end
      | _ => Raise (unparsable text)
      end
  end.

(** *** The main loop *)

(** [breakdown.get(k, 0)] *)
Definition breakdown_get (breakdown : Value) (k : string) : Result Value :=
  match breakdown with
  | JDict d => Ok (get d k (JInt 0))
  | _ => Raise (describe (NoAttribute breakdown "get"))
  end.

(** Lines 219 to 231: the dict appended to the session's results. *)
Definition result_row (file_name : string) (response_json : Dict) : Result Row :=
  let breakdown := get response_json "score_breakdown" (JDict []) in
  do b_experience <- breakdown_get breakdown "experience";
  do b_skills <- breakdown_get breakdown "skills";
  do b_education <- breakdown_get breakdown "education";
  do b_industry <- breakdown_get breakdown "industry";
  let breakdown_str :=
    ("Exp: " ++ py_str b_experience ++ ", Skills: " ++ py_str b_skills
     ++ ", Edu: " ++ py_str b_education ++ ", Ind: " ++ py_str b_industry)%string in
  let raw_score := get response_json "score" (JInt 0) in
  do score_int <- match py_int raw_score with
                  | Some n => Ok n
                  | None => Raise (describe (BadInt raw_score))
                  end;
  let raw_skills := get response_json "skills_matched" (JList []) in
  do skills <- match join_items raw_skills with
               | Some items => Ok (join ", " items)
               | None => Raise (describe (BadJoin raw_skills))
               end;
  Ok {| filename := file_name;
        name := get response_json "name" (JStr "N/A");
        score := score_int;
        education := get response_json "education" (JStr "N/A");
        experience := get response_json "experience" (JStr "N/A");
        skills_matched := skills;
        remark := get response_json "remark" (JStr "N/A");
        score_breakdown := breakdown_str |}.

(** [parse_json_response] on what [get_gemini_response] returned: only a
    [str] reaches the regular expression; for any other value the search
    and then the handler of [parse_json_response] raise. *)
Definition parse_response (response_text : Value) : Result Dict :=
  match response_text with
  | JStr text => parse_json_response text
  | _ => Raise (describe (NotText response_text))
  end.

(** The body of the [try] block for one file. *)
Definition process_file (inp : Inputs) (weights : Dict) (file : File) : Traced Row :=
  resume_text <~ call (CallExtractText (UploadedFile.name file)) (extract_text file);
  prompt <~ call (CallPreparePrompt resume_text)
                 (prepare_prompt resume_text (jd inp) weights (remark_tone inp));
  response_text <~ call (CallGemini prompt) (get_gemini_response prompt (api_key inp));
  response_json <~ quiet (parse_response response_text);
  quiet (result_row (UploadedFile.name file) response_json).

Definition error_msg (file : File) (e : string) : string :=
  (UploadedFile.name file ++ " ❌ " ++ e)%string.

(** One iteration: the [try] block and its [except Exception] handler. *)
Definition loop_body (inp : Inputs) (weights : Dict) (b : Batch) (file : File) : Batch :=
  match process_file inp weights file with
  | (evs, Ok row) =>
      {| results := results b ++ [row];
         success_count := success_count b + 1;
         failure_count := failure_count b;
         error_messages := error_messages b;
         batch_events := batch_events b ++ evs |}
  | (evs, Raise e) =>
      {| results := results b;
         success_count := success_count b;
         failure_count := failure_count b + 1;
         error_messages := error_messages b ++ [error_msg file e];
         batch_events := batch_events b ++ evs ++ [StError (error_msg file e)] |}
  end.

Definition empty_batch : Batch :=
  {| results := []; success_count := 0; failure_count := 0;
     error_messages := []; batch_events := [] |}.

Definition run_batch (inp : Inputs) (weights : Dict) (files : list File) : Batch :=
  fold_left (loop_body inp weights) files empty_batch.

(** *** Usage log *)

Definition log_usage_summary (log_entry : LogEntry.t) (log_file : option (list CsvLine))
  : option (list CsvLine) :=
  match log_file with
  | None => Some [HeaderLine LogEntry.keys; DataLine log_entry]
  | Some lines => Some (lines ++ [DataLine log_entry])
  end.

Definition summary (inp : Inputs) (b : Batch) : LogEntry.t :=
  {| LogEntry.timestamp := now_iso inp;
     LogEntry.user_action := "Resume Batch Analysis";
     LogEntry.number_of_resumes := Z.of_nat (List.length (uploaded_files inp));
     LogEntry.jd_length_words := word_count (jd inp);
     LogEntry.errors_occurred := (0 <? failure_count b)%Z;
     LogEntry.success_count := success_count b;
     LogEntry.failure_count := failure_count b;
     LogEntry.duration_sec := elapsed inp;
     LogEntry.error_message :=
       match error_messages b with
       | [] => "None"
       | _ :: _ => join "; " (error_messages b)
       end |}.

(** *** Accepted and rejected *)

(** [pd.DataFrame(rows)]: a fresh frame, labelled from 0. *)
Definition data_frame (rows : list Row) : DataFrame :=
  combine (seq 0 (List.length rows)) rows.

(** [df.sort_values(by="score", ascending=False, inplace=True)] *)
Definition sort_values (df : DataFrame) : DataFrame :=
  flat_map (fun i => match nth_error df i with Some r => [r] | None => [] end)
           (argsort_desc (map (fun r => score (snd r)) df)).

(** [df[mask]] *)
Definition select (keep : Row -> bool) (df : DataFrame) : DataFrame :=
  filter (fun r => keep (snd r)) df.

(** [df.reset_index(drop=True)] *)
Definition reset_index (df : DataFrame) : DataFrame :=
  combine (seq 0 (List.length df)) (map snd df).

Definition classify (rows : list Row) : DataFrame * DataFrame :=
  let df := sort_values (data_frame rows) in
  (reset_index (select (fun r => (60 <=? score r)%Z) df),
   reset_index (select (fun r => (score r <? 60)%Z) df)).

(** *** [main]

    Calls that only present something (the title, the widgets' labels, the
    summary of the job description, the cell colours, the table of the
    log) have no part in what the run computes and are left out. *)

Definition emit (evs : list Event) (s : Session) : Session :=
  {| session_results := session_results s;
     usage_log := usage_log s;
     events := events s ++ evs |}.

(** Lines 203 to 252: the batch behind the button. *)
Definition analyze (inp : Inputs) (weights : Dict) (s : Session) : Session :=
  let b := run_batch inp weights (uploaded_files inp) in
  {| session_results := Some (results b);
     usage_log := log_usage_summary (summary inp b) (usage_log s);
     events := events s ++ batch_events b |}.

(** Lines 255 to 270: the two tables. *)
Definition show_results (s : Session) : Session :=
  match session_results s with
  | None | Some [] => s
  | Some (r :: rows) =>
      let (accepted_df, rejected_df) := classify (r :: rows) in
      emit [StDataframe accepted_df; StDataframe rejected_df] s
  end.

Definition total (inp : Inputs) : Z :=
  experience_weight inp + skills_weight inp + education_weight inp + industry_weight inp.

(** The [weights] dict of line 186. *)
Definition weights_of (inp : Inputs) : Dict :=
  [("experience", JInt (experience_weight inp));
   ("skills", JInt (skills_weight inp));
   ("education", JInt (education_weight inp));
   ("industry", JInt (industry_weight inp))].

Definition main (inp : Inputs) (s : Session) : Session :=
  if negb (total inp =? 100)%Z then
    emit [StError ("Total is " ++ str_of_int (total inp)
                   ++ "%. Adjust to equal 100.")%string] s
  else
    let weights := weights_of inp in
    let s := match session_results s with
             | None => {| session_results := Some [];
                          usage_log := usage_log s;
                          events := events s |}
             | Some _ => s
             end in
    if analyze_pressed inp then
      match jd inp, uploaded_files inp with
      | EmptyString, _ | _, [] =>
          emit [StWarning "Please provide both Job Description and Resumes."] s
      | _, _ => show_results (analyze inp weights s)
      end
    else show_results s.

(** *** Vocabulary of the statements about a batch *)

(** What the [try] block gives for one file, taken alone. *)
Definition outcome (inp : Inputs) (weights : Dict) (file : File) : Result Row :=
  snd (process_file inp weights file).

(** The rows of the files whose [try] block completes, in the order of the
    files. *)
Definition succeeded (inp : Inputs) (weights : Dict) (files : list File) : list Row :=
  flat_map (fun file => match outcome inp weights file with
                        | Ok row => [row]
                        | Raise _ => []
                        end) files.

(** The error messages of the files whose [try] block raises, in the order
    of the files. *)
Definition failed (inp : Inputs) (weights : Dict) (files : list File) : list string :=
  flat_map (fun file => match outcome inp weights file with
                        | Ok _ => []
                        | Raise e => [error_msg file e]
                        end) files.

(** The prompt sent for a file, if the [try] block gets that far. *)
Definition prompt_for (inp : Inputs) (weights : Dict) (file : File) : list string :=
  match extract_text file with
  | Ok resume_text =>
      match prepare_prompt resume_text (jd inp) weights (remark_tone inp) with
      | Ok prompt => [prompt]
      | Raise _ => []
      end
  | Raise _ => []
  end.

(** The log file after logging the entries one after the other. *)
Definition log_all (entries : list LogEntry.t) (log_file : option (list CsvLine))
  : option (list CsvLine) :=
  fold_left (fun file entry => log_usage_summary entry file) entries log_file.

(** ** Properties *)

(** *** Text and the brace search *)

Lemma append_assoc (a b c : string) : ((a ++ b) ++ c = a ++ (b ++ c))%string.
Proof. induction a as [|x a IH]; simpl; [reflexivity | now rewrite IH]. Qed.

Lemma append_empty_r (a : string) : (a ++ "" = a)%string.
Proof. induction a as [|x a IH]; simpl; [reflexivity | now rewrite IH]. Qed.

Lemma all_chars_append ok a b :
  all_chars ok (a ++ b) = all_chars ok a && all_chars ok b.
Proof.
  induction a as [|c a IH]; simpl; [reflexivity|].
  now rewrite IH, andb_assoc.
Qed.

Lemma occurs_append c a b : occurs c (a ++ b) = occurs c a || occurs c b.
Proof.
  induction a as [|x a IH]; simpl; [reflexivity|].
  now rewrite IH, orb_assoc.
Qed.

Lemma upto_last_close_none s : occurs "}" s = false -> upto_last_close s = None.
Proof.
  induction s as [|x s IH]; simpl; [reflexivity|].
  intros H. apply orb_false_iff in H as [Hx Hs].
  now rewrite (IH Hs), Hx.
Qed.

Lemma upto_last_close_some s :
  occurs "}" s = true -> exists t, upto_last_close s = Some t.
Proof.
  induction s as [|x s IH]; simpl; [discriminate|].
  intros H. destruct (upto_last_close s) as [t|].
  - eexists; reflexivity.
  - destruct (Ascii.eqb x "}") eqn:Hx; [eexists; reflexivity|].
    simpl in H. destruct (IH H) as [t Ht]. discriminate.
Qed.

Lemma upto_last_close_greedy mid post :
  occurs "}" post = false ->
  upto_last_close (mid ++ "}" ++ post) = Some (mid ++ "}")%string.
Proof.
  intros Hpost. induction mid as [|x mid IH]; simpl.
  - now rewrite (upto_last_close_none _ Hpost).
  - simpl in IH. now rewrite IH.
Qed.

Lemma upto_last_close_inv s t :
  upto_last_close s = Some t ->
  exists mid post, s = (mid ++ "}" ++ post)%string /\ t = (mid ++ "}")%string
                   /\ occurs "}" post = false.
Proof.
  revert t. induction s as [|x s IH]; simpl; [discriminate|].
  intros t H. destruct (upto_last_close s) as [u|] eqn:Hu.
  - injection H as <-. destruct (IH u eq_refl) as (mid & post & -> & -> & Hp).
    exists (String x mid), post. auto.
  - destruct (Ascii.eqb x "}") eqn:Hx; [|discriminate].
    injection H as <-. apply Ascii.eqb_eq in Hx as ->.
    exists EmptyString, s. repeat split.
    destruct (occurs "}" s) eqn:Ho; [|reflexivity].
    destruct (upto_last_close_some _ Ho) as [u Hu']. congruence.
Qed.

(** The search returns the span from the first opening brace to the last
    closing brace. *)
Lemma re_search_braces_span pre mid post :
  occurs "{" pre = false -> occurs "}" post = false ->
  re_search_braces (pre ++ "{" ++ mid ++ "}" ++ post) = Some ("{" ++ mid ++ "}")%string.
Proof.
  intros Hpre Hpost. induction pre as [|x pre IH]; simpl.
  - pose proof (upto_last_close_greedy mid post Hpost) as H. simpl in H.
    now rewrite H.
  - simpl in Hpre. apply orb_false_iff in Hpre as [Hx Hpre].
    rewrite Hx. now apply IH.
Qed.

Lemma re_search_braces_inv text span :
  re_search_braces text = Some span ->
  exists pre mid post,
    text = (pre ++ "{" ++ mid ++ "}" ++ post)%string /\ span = ("{" ++ mid ++ "}")%string
    /\ occurs "{" pre = false /\ occurs "}" post = false.
Proof.
  induction text as [|x text IH]; simpl; [discriminate|].
  destruct (Ascii.eqb x "{") eqn:Hx.
  - destruct (upto_last_close text) as [body|] eqn:Hb.
    + intros H. injection H as <-. apply Ascii.eqb_eq in Hx as ->.
      destruct (upto_last_close_inv _ _ Hb) as (mid & post & -> & -> & Hp).
      exists EmptyString, mid, post. auto.
    + intros H. destruct (IH H) as (pre & mid & post & -> & -> & Ho & Hp).
      assert (Hc : occurs "}" (pre ++ "{" ++ mid ++ "}" ++ post) = true).
      { rewrite !occurs_append. simpl. now rewrite !orb_true_r. }
      destruct (upto_last_close_some _ Hc) as [u Hu]. congruence.
  - intros H. destruct (IH H) as (pre & mid & post & -> & -> & Ho & Hp).
    exists (String x pre), mid, post. simpl. rewrite Hx, Ho. auto.
Qed.

Lemma re_search_braces_some text :
  has_brace_span text -> exists span, re_search_braces text = Some span.
Proof.
  intros (a & b & c & ->). induction a as [|x a IH]; simpl.
  - assert (Hc : occurs "}" (b ++ "}" ++ c) = true).
    { rewrite !occurs_append. simpl. now rewrite orb_true_r. }
    destruct (upto_last_close_some _ Hc) as [u Hu]. simpl in Hu.
    rewrite Hu. eexists; reflexivity.
  - destruct (Ascii.eqb x "{"); [|exact IH].
    destruct (upto_last_close _); [eexists; reflexivity | exact IH].
Qed.

Lemma re_search_braces_none text :
  ~ has_brace_span text -> re_search_braces text = None.
Proof.
  intros H. destruct (re_search_braces text) as [span|] eqn:Hs; [|reflexivity].
  destruct (re_search_braces_inv _ _ Hs) as (pre & mid & post & -> & _).
  exfalso. apply H. now exists pre, mid, post.
Qed.

Lemma continues_slice_to n text : continues (slice_to (S n) text) = continues text.
Proof. now destruct text. Qed.

Lemma slice_to_prefix text : forall n, String.prefix (slice_to n text) text = true.
Proof.
  induction text as [|c text IH]; intros [|n]; simpl; try reflexivity.
  destruct (ascii_dec c c) as [_|Hc]; [|now destruct Hc].
  destruct (continues text); apply IH.
Qed.

(** A slice holds as many characters as asked for, or the whole text. *)
Lemma slice_to_len text : forall n, len (slice_to n text) = Nat.min n (len text).
Proof.
  induction text as [|c text IH]; intros [|n]; try reflexivity.
  cbn [slice_to len]. destruct (continues text) eqn:Hc.
  - rewrite continues_slice_to, Hc. apply IH.
  - destruct n as [|n].
    + now destruct text.
    + rewrite continues_slice_to, Hc, IH. reflexivity.
Qed.

Lemma slice_to_nonempty n text : text <> "" -> slice_to (S n) text <> "".
Proof. destruct text; simpl; [congruence | discriminate]. Qed.

Lemma chars_nonempty c s : chars (String c s) <> [].
Proof.
  simpl. destruct (chars s); [discriminate|]. destruct (continues s); discriminate.
Qed.

(** [len] counts the characters [chars] gives. *)
Lemma len_chars text : len text = List.length (chars text).
Proof.
  induction text as [|c text IH]; [reflexivity|].
  cbn [len chars]. rewrite IH.
  destruct text as [|d text]; [reflexivity|].
  pose proof (chars_nonempty d text) as Hne.
  destruct (chars (String d text)) as [|ch more]; [congruence|].
  now destruct (continues (String d text)).
Qed.

Lemma join_cons_char c ch more :
  join "" (String c ch :: more) = String c (join "" (ch :: more)).
Proof. destruct more; reflexivity. Qed.

Lemma join_chars text : join "" (chars text) = text.
Proof.
  induction text as [|c text IH]; [reflexivity|].
  cbn [chars]. destruct (chars text) as [|ch more] eqn:Hc.
  - destruct text; [reflexivity | now destruct (chars_nonempty _ _ Hc)].
  - destruct (continues text).
    + rewrite join_cons_char. now rewrite IH.
    + change (join "" (String c "" :: ch :: more))
        with (String c (join "" (ch :: more))).
      now rewrite IH.
Qed.

(** A slice is made of the first characters of the text. *)
Lemma slice_to_chars text : forall n, slice_to n text = join "" (firstn n (chars text)).
Proof.
  induction text as [|c text IH]; intros [|n]; try reflexivity.
  cbn [slice_to chars].
  destruct text as [|d text].
  { destruct n; reflexivity. }
  pose proof (chars_nonempty d text) as Hne.
  destruct (chars (String d text)) as [|ch more] eqn:Hc; [congruence|].
  destruct (continues (String d text)).
  - rewrite IH. cbn [firstn]. now rewrite join_cons_char.
  - rewrite IH. cbn [firstn]. destruct n; reflexivity.
Qed.

(** *** Texts of ASCII *)

Lemma all_chars_weaken (p q : ascii -> bool) s :
  (forall c, p c = true -> q c = true) -> all_chars p s = true -> all_chars q s = true.
Proof.
  intros Hpq. induction s as [|c s IH]; simpl; [reflexivity|].
  intros H. apply andb_true_iff in H as [Hc Hs]. now rewrite (Hpq c Hc), (IH Hs).
Qed.

Lemma ascii_starts_char s : all_chars is_ascii s = true -> continues s = false.
Proof.
  destruct s as [|c s]; simpl; [reflexivity|].
  intros H. apply andb_true_iff in H as [Hc _].
  unfold is_ascii in Hc. unfold is_continuation.
  apply Nat.ltb_lt in Hc. destruct (Nat.leb_spec 128 (nat_of_ascii c)); [lia | reflexivity].
Qed.

Lemma chars_ascii s : all_chars is_ascii s = true -> chars s = singles s.
Proof.
  induction s as [|c s IH]; simpl; [reflexivity|].
  intros H. apply andb_true_iff in H as [Hc Hs].
  rewrite (IH Hs), (ascii_starts_char s Hs).
  now destruct s.
Qed.

Lemma singles_append a b : singles (a ++ b) = singles a ++ singles b.
Proof.
  unfold singles. induction a as [|c a IH]; simpl; [reflexivity | now rewrite IH].
Qed.

Lemma join_singles s : join "" (singles s) = s.
Proof.
  induction s as [|c s IH]; [reflexivity|].
  change (singles (String c s)) with (single c :: singles s).
  destruct s as [|d s]; [reflexivity|].
  change (singles (String d s)) with (single d :: singles s) in *.
  cbn [join]. cbn [join] in IH. now rewrite IH.
Qed.

(** *** Dicts *)

Lemma lookup_app d e k :
  lookup (d ++ e) k = match lookup d k with Some x => Some x | None => lookup e k end.
Proof.
  induction d as [|[k' v] d IH]; simpl; [reflexivity|].
  now destruct (String.eqb k' k).
Qed.

Lemma lookup_setitem_same d k v : lookup (setitem d k v) k = Some v.
Proof.
  induction d as [|[k' v'] d IH]; simpl.
  - now rewrite String.eqb_refl.
  - destruct (String.eqb k' k) eqn:E; simpl.
    + now rewrite String.eqb_refl.
    + now rewrite E.
Qed.

Lemma lookup_setitem_other d k v k' :
  k' <> k -> lookup (setitem d k v) k' = lookup d k'.
Proof.
  intros Hne. induction d as [|[k0 v0] d IH]; simpl.
  - destruct (String.eqb_spec k k'); [congruence | reflexivity].
  - destruct (String.eqb_spec k0 k) as [->|Hk]; simpl.
    + destruct (String.eqb_spec k k'); [congruence | reflexivity].
    + now rewrite IH.
Qed.

Lemma lookup_setdefault d k v k' :
  lookup (setdefault d k v) k'
  = match lookup d k' with
    | Some x => Some x
    | None => if String.eqb k k' then Some v else None
    end.
Proof.
  unfold setdefault. destruct (lookup d k) as [x|] eqn:Hk.
  - destruct (lookup d k') eqn:Hk'; [reflexivity|].
    destruct (String.eqb_spec k k'); [congruence | reflexivity].
  - rewrite lookup_app. simpl. now destruct (lookup d k').
Qed.

Lemma lookup_fold_setdefault fields v d k :
  lookup (fold_left (fun sb field => setdefault sb field v) fields d) k
  = match lookup d k with
    | Some x => Some x
    | None => if existsb (fun field => String.eqb field k) fields then Some v else None
    end.
Proof.
  revert d. induction fields as [|f fields IH]; intros d; simpl.
  - now destruct (lookup d k).
  - rewrite IH, lookup_setdefault.
    destruct (lookup d k); [reflexivity|].
    now destruct (String.eqb f k).
Qed.

Lemma complete_breakdown_field sb field :
  In field breakdown_fields ->
  lookup (complete_breakdown sb) field = Some (get sb field (JInt 0)).
Proof.
  intros Hin. unfold complete_breakdown, get. rewrite lookup_fold_setdefault.
  destruct (lookup sb field); [reflexivity|].
  assert (H : existsb (fun f => String.eqb f field) breakdown_fields = true).
  { apply existsb_exists. exists field. split; [exact Hin | apply String.eqb_refl]. }
  now rewrite H.
Qed.

Lemma complete_breakdown_keeps sb k v :
  lookup sb k = Some v -> lookup (complete_breakdown sb) k = Some v.
Proof.
  intros H. unfold complete_breakdown. now rewrite lookup_fold_setdefault, H.
Qed.

(** *** [parse_json_response] *)

Lemma parse_json_response_ok text span parsed sb :
  re_search_braces text = Some span ->
  json_loads span = Ok (JDict parsed) ->
  get parsed "score_breakdown" (JDict []) = JDict sb ->
  parse_json_response text
  = Ok (setitem parsed "score_breakdown" (JDict (complete_breakdown sb))).
Proof.
  intros Hs Hj Hb. unfold parse_json_response. now rewrite Hs, Hj, Hb.
Qed.

Lemma parse_json_response_raises text :
  forall msg, parse_json_response text = Raise msg -> msg = unparsable text.
Proof.
  intros msg. unfold parse_json_response.
  destruct (re_search_braces text); [|congruence].
  destruct (json_loads s) as [[]|]; try congruence.
  destruct (get entries "score_breakdown" (JDict [])); congruence.
Qed.

(** C3: for a text with an opening brace followed later by a closing brace,
    [parse_json_response] takes the span from the first opening brace to
    the last closing brace; when that span decodes to an object whose
    [score_breakdown] is absent or an object, it returns the object with
    every absent field of [score_breakdown] set to 0 and the present ones
    kept, without raising.  With [score_breakdown] missing the breakdown is
    all zeros, and the example response gives score 77 and a zero
    breakdown. *)
Theorem parse_json_response_completes_breakdown :
  (forall pre mid post,
      occurs "{" pre = false -> occurs "}" post = false ->
      re_search_braces (pre ++ "{" ++ mid ++ "}" ++ post)
      = Some ("{" ++ mid ++ "}")%string)
  /\ (forall text, has_brace_span text ->
        exists pre mid post,
          text = (pre ++ "{" ++ mid ++ "}" ++ post)%string
          /\ occurs "{" pre = false /\ occurs "}" post = false)
  /\ (forall text span parsed sb,
        re_search_braces text = Some span ->
        json_loads span = Ok (JDict parsed) ->
        get parsed "score_breakdown" (JDict []) = JDict sb ->
        exists record completed,
          parse_json_response text = Ok record
          /\ lookup record "score_breakdown" = Some (JDict completed)
          /\ (forall field, In field breakdown_fields -> lookup sb field = None ->
                lookup completed field = Some (JInt 0))
          /\ (forall k v, lookup sb k = Some v -> lookup completed k = Some v)
          /\ (forall k, k <> "score_breakdown" -> lookup record k = lookup parsed k))
  /\ (forall text span parsed,
        re_search_braces text = Some span ->
        json_loads span = Ok (JDict parsed) ->
        lookup parsed "score_breakdown" = None ->
        exists record,
          parse_json_response text = Ok record
          /\ lookup record "score_breakdown" = Some (JDict zero_breakdown))
  /\ (json_loads example_span = Ok (JDict [("name", JStr "A"); ("score", JInt 77)]) ->
      parse_json_response example_response
      = Ok [("name", JStr "A"); ("score", JInt 77);
            ("score_breakdown", JDict zero_breakdown)]
      /\ forall file_name, exists row,
           bind (parse_json_response example_response) (result_row file_name) = Ok row
           /\ score row = 77
           /\ score_breakdown row = "Exp: 0, Skills: 0, Edu: 0, Ind: 0").
Proof.
  split; [exact re_search_braces_span|].
  split.
  { intros text H. destruct (re_search_braces_some _ H) as [span Hs].
    destruct (re_search_braces_inv _ _ Hs) as (pre & mid & post & -> & _ & Ho & Hc).
    now exists pre, mid, post. }
  split.
  { intros text span parsed sb Hs Hj Hb.
    exists (setitem parsed "score_breakdown" (JDict (complete_breakdown sb))),
           (complete_breakdown sb).
    split; [now apply parse_json_response_ok with (span := span)|].
    split; [apply lookup_setitem_same|].
    split.
    { intros field Hin Hnone. rewrite (complete_breakdown_field _ _ Hin).
      unfold get. now rewrite Hnone. }
    split; [apply complete_breakdown_keeps|].
    intros k Hk. now apply lookup_setitem_other. }
  split.
  { intros text span parsed Hs Hj Hnone.
    exists (setitem parsed "score_breakdown" (JDict (complete_breakdown []))).
    split.
    - apply parse_json_response_ok with (span := span); try assumption.
      unfold get. now rewrite Hnone.
    - apply lookup_setitem_same. }
  intros Hj.
  assert (Hp : parse_json_response example_response
               = Ok [("name", JStr "A"); ("score", JInt 77);
                     ("score_breakdown", JDict zero_breakdown)]).
  { now rewrite (parse_json_response_ok example_response example_span _ []
                   eq_refl Hj eq_refl). }
  split; [exact Hp|].
  intros file_name. rewrite Hp. eexists. split; [reflexivity|]. split; reflexivity.
Qed.

(** C6, as the code has it: for a text with no opening brace followed later
    by a closing brace, [parse_json_response] raises, and the message carries
    the first 500 characters of the text (all of them when the text has
    fewer), a prefix of it that is non-empty whenever the text is. *)
Theorem parse_json_response_without_span :
  forall text, ~ has_brace_span text ->
    parse_json_response text
    = Raise ("❌ Could not parse JSON from Gemini:" ++ nl
             ++ slice_to 500 text ++ "...")%string
    /\ slice_to 500 text = join "" (firstn 500 (chars text))
    /\ String.prefix (slice_to 500 text) text = true
    /\ len (slice_to 500 text) = Nat.min 500 (len text)
    /\ (text <> "" -> slice_to 500 text <> "").
Proof.
  intros text H. split.
  - unfold parse_json_response. now rewrite (re_search_braces_none _ H).
  - split; [apply slice_to_chars|]. split; [apply slice_to_prefix|].
    split; [apply slice_to_len | apply slice_to_nonempty].
Qed.

(** C9: when the decoded object binds [score_breakdown] to a value that is
    not an object, [parse_json_response] raises its [ValueError] for the
    whole record; it returns a record only when [score_breakdown] is absent
    or bound to an object. *)
Theorem parse_json_response_rejects_non_object_breakdown :
  (forall text span parsed v,
      re_search_braces text = Some span ->
      json_loads span = Ok (JDict parsed) ->
      lookup parsed "score_breakdown" = Some v ->
      (forall sb, v <> JDict sb) ->
      parse_json_response text = Raise (unparsable text))
  /\ (forall text record,
        parse_json_response text = Ok record ->
        exists span parsed,
          re_search_braces text = Some span
          /\ json_loads span = Ok (JDict parsed)
          /\ (lookup parsed "score_breakdown" = None
              \/ exists sb, lookup parsed "score_breakdown" = Some (JDict sb))).
Proof.
  split.
  - intros text span parsed v Hs Hj Hv Hno.
    unfold parse_json_response, get. rewrite Hs, Hj, Hv.
    destruct v; try reflexivity. now destruct (Hno entries).
  - intros text record. unfold parse_json_response, get.
    destruct (re_search_braces text) as [span|]; [|discriminate].
    destruct (json_loads span) as [[]|] eqn:Hj; try discriminate.
    destruct (lookup entries "score_breakdown") as [v|] eqn:Hv.
    + destruct v; try discriminate. intros _.
      exists span, entries. split; [reflexivity|]. split; [exact Hj|].
      right. eexists. exact Hv.
    + intros _. exists span, entries. split; [reflexivity|]. split; [exact Hj|].
      left. exact Hv.
Qed.

(** *** The prompt *)

Lemma join_app sep l1 l2 :
  l1 <> [] -> l2 <> [] ->
  join sep (l1 ++ l2) = (join sep l1 ++ sep ++ join sep l2)%string.
Proof.
  intros H1 H2. induction l1 as [|p [|q r] IH]; [congruence| |].
  - destruct l2; [congruence | reflexivity].
  - change (join sep ((p :: q :: r) ++ l2))
      with (p ++ sep ++ join sep ((q :: r) ++ l2))%string.
    rewrite IH by discriminate.
    change (join sep (p :: q :: r)) with (p ++ sep ++ join sep (q :: r))%string.
    now rewrite !append_assoc.
Qed.

Lemma embeds_join_segment sep before_lines segment after_lines :
  segment <> [] ->
  embeds (join sep segment) (join sep (before_lines ++ segment ++ after_lines)).
Proof.
  intros Hs.
  assert (Hleft : forall rest, embeds (join sep segment) rest ->
                    embeds (join sep segment)
                           (join sep before_lines ++ sep ++ rest)%string).
  { intros rest (b & a & ->). exists (join sep before_lines ++ sep ++ b)%string, a.
    now rewrite !append_assoc. }
  assert (Hright : embeds (join sep segment) (join sep (segment ++ after_lines))).
  { destruct after_lines as [|x after_lines].
    - rewrite app_nil_r. exists EmptyString, EmptyString.
      now rewrite append_empty_r.
    - rewrite join_app by (assumption || discriminate).
      now exists EmptyString, (sep ++ join sep (x :: after_lines))%string. }
  destruct before_lines as [|y before_lines]; [exact Hright|].
  rewrite join_app; [now apply Hleft | discriminate |].
  destruct segment; [congruence | discriminate].
Qed.

Lemma join_tail sep before_lines tail_lines :
  before_lines <> [] -> tail_lines <> [] ->
  exists before,
    join sep (before_lines ++ tail_lines) = (before ++ sep ++ join sep tail_lines)%string.
Proof. intros H1 H2. eexists. now apply join_app. Qed.

(** C8: for every resume text, job description, tone and weight quadruple
    (whatever its sum), [prepare_prompt] returns a prompt and does not
    raise; the prompt holds the four weight lines with the weights in
    decimal, the tone instruction, and ends with the resume and the job
    description as they are.  A tone outside Professional, Critical and
    Blunt gets the default instruction. *)
Theorem prepare_prompt_embeds_inputs :
  forall resume_text jd_text remark_tone w_experience w_skills w_education w_industry,
    let weights := [("experience", JInt w_experience); ("skills", JInt w_skills);
                    ("education", JInt w_education); ("industry", JInt w_industry)] in
    let instruction := get tone_instruction remark_tone (JStr "Use a professional tone.") in
    exists prompt,
      prepare_prompt resume_text jd_text weights remark_tone = Ok prompt
      /\ embeds (join nl
                   [ "1. Experience Match - " ++ str_of_int w_experience ++ "%";
                     "2. Skill Match - " ++ str_of_int w_skills ++ "%";
                     "3. Education Quality - " ++ str_of_int w_education ++ "%";
                     "4. Industry relevance - " ++ str_of_int w_industry ++ "%" ]%string)
                prompt
      /\ embeds (join nl [ "Remark Instructions:"; "- " ++ py_str instruction ]%string)
                prompt
      /\ (exists before,
            prompt = (before ++ nl
                      ++ join nl [ "Resume:"; resume_text; "";
                                   "Job Description:"; jd_text; "" ])%string)
      /\ (remark_tone <> "Professional" -> remark_tone <> "Critical" ->
          remark_tone <> "Blunt" ->
          instruction = JStr "Use a professional tone.")
      /\ (remark_tone = "Professional" -> instruction = JStr "Use a neutral and formal tone.")
      /\ (remark_tone = "Critical" ->
          instruction = JStr "Be sharply evaluative, pointing out weaknesses clearly.")
      /\ (remark_tone = "Blunt" ->
          instruction = JStr "Give a direct, no-nonsense assessment without sugarcoating.").
Proof.
  intros resume_text jd_text remark_tone w1 w2 w3 w4 weights instruction.
  eexists. split; [reflexivity|].
  split.
  { exact (embeds_join_segment nl
             [ ""; "You are acting as a professional HR Manager at JSW Paints.";
               ""; "Evaluate the following resume against the job description.";
               ""; "Scoring Logic:" ]
             [ ("1. Experience Match - " ++ str_of_int w1 ++ "%")%string;
               ("2. Skill Match - " ++ str_of_int w2 ++ "%")%string;
               ("3. Education Quality - " ++ str_of_int w3 ++ "%")%string;
               ("4. Industry relevance - " ++ str_of_int w4 ++ "%")%string ]
             (rules_and_format
              ++ [ ("- " ++ py_str instruction)%string;
                   ""; "Resume:"; resume_text; ""; "Job Description:"; jd_text; "" ])
             ltac:(discriminate)). }
  split.
  { exact (embeds_join_segment nl
             ([ ""; "You are acting as a professional HR Manager at JSW Paints.";
                ""; "Evaluate the following resume against the job description.";
                ""; "Scoring Logic:";
                ("1. Experience Match - " ++ str_of_int w1 ++ "%")%string;
                ("2. Skill Match - " ++ str_of_int w2 ++ "%")%string;
                ("3. Education Quality - " ++ str_of_int w3 ++ "%")%string;
                ("4. Industry relevance - " ++ str_of_int w4 ++ "%")%string ]
              ++ removelast rules_and_format)
             [ "Remark Instructions:"; ("- " ++ py_str instruction)%string ]
             [ ""; "Resume:"; resume_text; ""; "Job Description:"; jd_text; "" ]
             ltac:(discriminate)). }
  split.
  { exact (join_tail nl
             ([ ""; "You are acting as a professional HR Manager at JSW Paints.";
                ""; "Evaluate the following resume against the job description.";
                ""; "Scoring Logic:";
                ("1. Experience Match - " ++ str_of_int w1 ++ "%")%string;
                ("2. Skill Match - " ++ str_of_int w2 ++ "%")%string;
                ("3. Education Quality - " ++ str_of_int w3 ++ "%")%string;
                ("4. Industry relevance - " ++ str_of_int w4 ++ "%")%string ]
              ++ rules_and_format ++ [ ("- " ++ py_str instruction)%string; "" ])
             [ "Resume:"; resume_text; ""; "Job Description:"; jd_text; "" ]
             ltac:(discriminate) ltac:(discriminate)). }
  unfold instruction, get, tone_instruction.
  split.
  { intros H1 H2 H3. cbn [lookup].
    destruct (String.eqb_spec "Professional" remark_tone); [congruence|].
    destruct (String.eqb_spec "Critical" remark_tone); [congruence|].
    destruct (String.eqb_spec "Blunt" remark_tone); [congruence|].
    reflexivity. }
  split; [now intros ->|].
  split; now intros ->.
Qed.

(** *** The main loop *)

Section Loop.

Variable inp : Inputs.
Variable weights : Dict.

Lemma loop_body_ok b file row :
  outcome inp weights file = Ok row ->
  results (loop_body inp weights b file) = results b ++ [row]
  /\ error_messages (loop_body inp weights b file) = error_messages b
  /\ success_count (loop_body inp weights b file) = success_count b + 1
  /\ failure_count (loop_body inp weights b file) = failure_count b.
Proof.
  unfold outcome, loop_body. destruct (process_file inp weights file) as [evs [r|e]];
    simpl; intros H; [|discriminate].
  injection H as ->. auto.
Qed.

Lemma loop_body_raise b file e :
  outcome inp weights file = Raise e ->
  results (loop_body inp weights b file) = results b
  /\ error_messages (loop_body inp weights b file) = error_messages b ++ [error_msg file e]
  /\ success_count (loop_body inp weights b file) = success_count b
  /\ failure_count (loop_body inp weights b file) = failure_count b + 1.
Proof.
  unfold outcome, loop_body. destruct (process_file inp weights file) as [evs [r|e']];
    simpl; intros H; [discriminate|].
  injection H as ->. auto.
Qed.

Lemma fold_loop_body files : forall b,
  let b' := fold_left (loop_body inp weights) files b in
  results b' = results b ++ succeeded inp weights files
  /\ error_messages b' = error_messages b ++ failed inp weights files
  /\ success_count b' = success_count b + Z.of_nat (List.length (succeeded inp weights files))
  /\ failure_count b' = failure_count b + Z.of_nat (List.length (failed inp weights files)).
Proof.
  induction files as [|file files IH]; intros b; simpl.
  - rewrite !app_nil_r. repeat split; lia.
  - destruct (IH (loop_body inp weights b file)) as (Hr & He & Hs & Hf).
    rewrite Hr, He, Hs, Hf. clear IH Hr He Hs Hf.
    destruct (outcome inp weights file) as [row|e] eqn:Ho.
    + destruct (loop_body_ok b file row Ho) as (-> & -> & -> & ->).
      rewrite <- app_assoc. simpl. repeat split; lia.
    + destruct (loop_body_raise b file e Ho) as (-> & -> & -> & ->).
      rewrite <- app_assoc. simpl. repeat split; lia.
Qed.

Lemma run_batch_spec files :
  let b := run_batch inp weights files in
  results b = succeeded inp weights files
  /\ error_messages b = failed inp weights files
  /\ success_count b = Z.of_nat (List.length (succeeded inp weights files))
  /\ failure_count b = Z.of_nat (List.length (failed inp weights files)).
Proof. exact (fold_loop_body files empty_batch). Qed.

Lemma succeeded_failed_length files :
  (List.length (succeeded inp weights files) + List.length (failed inp weights files)
   = List.length files)%nat.
Proof.
  induction files as [|file files IH]; simpl; [reflexivity|].
  rewrite !length_app.
  destruct (outcome inp weights file); simpl; lia.
Qed.

Lemma succeeded_app l1 l2 :
  succeeded inp weights (l1 ++ l2) = succeeded inp weights l1 ++ succeeded inp weights l2.
Proof. apply flat_map_app. Qed.

Lemma failed_app l1 l2 :
  failed inp weights (l1 ++ l2) = failed inp weights l1 ++ failed inp weights l2.
Proof. apply flat_map_app. Qed.

(** The [try] block stops at the first step that raises. *)
Lemma outcome_steps file :
  outcome inp weights file
  = (do resume_text <- extract_text file;
     do prompt <- prepare_prompt resume_text (jd inp) weights (remark_tone inp);
     do response_text <- get_gemini_response prompt (api_key inp);
     do response_json <- parse_response response_text;
     result_row (UploadedFile.name file) response_json).
Proof.
  unfold outcome, process_file, then_, call, quiet.
  destruct (extract_text file) as [resume_text|]; simpl; [|reflexivity].
  destruct (prepare_prompt _ _ _ _) as [prompt|]; simpl; [|reflexivity].
  destruct (get_gemini_response _ _) as [response_text|]; simpl; [|reflexivity].
  destruct (parse_response response_text) as [response_json|]; simpl; [|reflexivity].
  now destruct (result_row _ response_json).
Qed.

End Loop.

(** C1: the loop handles the files in the given order and each file on its
    own: the results are the rows of the files whose [try] block completes,
    the errors one message per file whose block raises, made of the name
    of that file and the text of the exception.  Taking a failing file out
    of the batch changes nothing for the other files.  For three files of
    which only the second fails, at extraction, there are two results, one
    error with the name of the second file, and the summary counts 2 and
    1. *)
Theorem batch_isolates_failures :
  forall inp weights,
    (forall files,
        let b := run_batch inp weights files in
        results b = succeeded inp weights files
        /\ error_messages b = failed inp weights files
        /\ success_count b = Z.of_nat (List.length (results b))
        /\ failure_count b = Z.of_nat (List.length (error_messages b))
        /\ (List.length (results b) + List.length (error_messages b)
            = List.length files)%nat)
    /\ (forall before file after e,
          outcome inp weights file = Raise e ->
          let b := run_batch inp weights (before ++ file :: after) in
          let others := run_batch inp weights (before ++ after) in
          results b = results others
          /\ error_messages b
             = error_messages (run_batch inp weights before)
               ++ [(UploadedFile.name file ++ " ❌ " ++ e)%string]
               ++ error_messages (run_batch inp weights after)
          /\ success_count b = success_count others
          /\ failure_count b = failure_count others + 1)
    /\ (forall file e,
          extract_text file = Raise e
          \/ (exists resume_text prompt,
                extract_text file = Ok resume_text
                /\ prepare_prompt resume_text (jd inp) weights (remark_tone inp) = Ok prompt
                /\ get_gemini_response prompt (api_key inp) = Raise e)
          \/ (exists resume_text prompt response_text,
                extract_text file = Ok resume_text
                /\ prepare_prompt resume_text (jd inp) weights (remark_tone inp) = Ok prompt
                /\ get_gemini_response prompt (api_key inp) = Ok response_text
                /\ parse_response response_text = Raise e) ->
          outcome inp weights file = Raise e)
    /\ (forall f1 f2 f3 r1 r3 e,
          outcome inp weights f1 = Ok r1 ->
          extract_text f2 = Raise e ->
          outcome inp weights f3 = Ok r3 ->
          let b := run_batch inp weights [f1; f2; f3] in
          results b = [r1; r3]
          /\ error_messages b = [(UploadedFile.name f2 ++ " ❌ " ++ e)%string]
          /\ LogEntry.success_count (summary inp b) = 2
          /\ LogEntry.failure_count (summary inp b) = 1).
Proof.
  intros inp weights. split; [|split; [|split]].
  - intros files b.
    destruct (run_batch_spec inp weights files) as (Hr & He & Hs & Hf).
    fold b in Hr, He, Hs, Hf. rewrite Hr, He.
    repeat split; try assumption. apply succeeded_failed_length.
  - intros before file after e Ho b others.
    destruct (run_batch_spec inp weights (before ++ file :: after)) as (Hr & He & Hs & Hf).
    destruct (run_batch_spec inp weights (before ++ after)) as (Hr' & He' & Hs' & Hf').
    destruct (run_batch_spec inp weights before) as (_ & Heb & _).
    destruct (run_batch_spec inp weights after) as (_ & Hea & _).
    fold b in Hr, He, Hs, Hf. fold others in Hr', He', Hs', Hf'.
    rewrite Hr, He, Hs, Hf, Hr', Hs', Hf', Heb, Hea.
    rewrite !succeeded_app, !failed_app, !length_app. simpl.
    rewrite Ho. simpl. repeat split; lia.
  - intros file e H. rewrite outcome_steps.
    destruct H as [H | [(resume_text & prompt & H1 & H2 & H3)
                       | (resume_text & prompt & response_text & H1 & H2 & H3 & H4)]].
    + now rewrite H.
    + rewrite H1. simpl. rewrite H2. simpl. now rewrite H3.
    + rewrite H1. simpl. rewrite H2. simpl. rewrite H3. simpl. now rewrite H4.
  - intros f1 f2 f3 r1 r3 e H1 H2 H3 b.
    assert (Ho2 : outcome inp weights f2 = Raise e).
    { rewrite outcome_steps, H2. reflexivity. }
    destruct (run_batch_spec inp weights [f1; f2; f3]) as (Hr & He & Hs & Hf).
    fold b in Hr, He, Hs, Hf. simpl. rewrite Hr, He, Hs, Hf.
    unfold succeeded, failed. simpl. rewrite H1, Ho2, H3. simpl.
    repeat split.
Qed.

(** *** The score *)

Lemma parse_json_response_breakdown text record :
  parse_json_response text = Ok record ->
  exists sb, get record "score_breakdown" (JDict []) = JDict sb.
Proof.
  unfold parse_json_response.
  destruct (re_search_braces text) as [span|]; [|discriminate].
  destruct (json_loads span) as [[]|]; try discriminate.
  destruct (get entries "score_breakdown" (JDict [])); try discriminate.
  intros H. injection H as <-. unfold get. rewrite lookup_setitem_same.
  now eexists.
Qed.

(** C4, as the code has it: for a parsed response the score of the row is
    [int] of the parsed score, and 0 when the score is absent; a score
    [int] cannot convert makes the [try] block raise, so the file gets an
    error message and no row. *)
Theorem score_is_int_of_parsed_score :
  forall text response_json file_name,
    parse_json_response text = Ok response_json ->
    let raw_score := get response_json "score" (JInt 0) in
    (forall n items,
        py_int raw_score = Some n ->
        join_items (get response_json "skills_matched" (JList [])) = Some items ->
        exists row, result_row file_name response_json = Ok row /\ score row = n)
    /\ (lookup response_json "score" = None -> py_int raw_score = Some 0)
    /\ (py_int raw_score = None ->
        result_row file_name response_json = Raise (describe (BadInt raw_score))
        /\ forall inp weights file resume_text prompt,
             UploadedFile.name file = file_name ->
             extract_text file = Ok resume_text ->
             prepare_prompt resume_text (jd inp) weights (remark_tone inp) = Ok prompt ->
             get_gemini_response prompt (api_key inp) = Ok (JStr text) ->
             let b := run_batch inp weights [file] in
             results b = []
             /\ error_messages b
                = [(file_name ++ " ❌ " ++ describe (BadInt raw_score))%string]).
Proof.
  intros text response_json file_name Hp raw_score.
  destruct (parse_json_response_breakdown _ _ Hp) as [sb Hsb].
  assert (Hraise : py_int raw_score = None ->
            result_row file_name response_json = Raise (describe (BadInt raw_score))).
  { intros Hn. unfold result_row. rewrite Hsb. simpl. fold raw_score. now rewrite Hn. }
  split; [|split].
  - intros n items Hn Hj. unfold result_row. rewrite Hsb. simpl.
    fold raw_score. rewrite Hn. simpl. rewrite Hj. simpl.
    eexists. split; reflexivity.
  - intros Hnone. unfold raw_score, get. now rewrite Hnone.
  - intros Hn. split; [now apply Hraise|].
    intros inp weights file resume_text prompt Hname He Hpr Hg b.
    assert (Ho : outcome inp weights file = Raise (describe (BadInt raw_score))).
    { rewrite outcome_steps, He. simpl. rewrite Hpr. simpl. rewrite Hg. simpl.
      rewrite Hp. simpl. rewrite Hname. now apply Hraise. }
    destruct (run_batch_spec inp weights [file]) as (Hr & Hm & _).
    fold b in Hr, Hm. rewrite Hr, Hm. unfold succeeded, failed. simpl.
    rewrite Ho. simpl. unfold error_msg. now rewrite Hname.
Qed.

(** *** The usage log *)

Lemma data_lines_log entry log_file :
  data_lines (log_usage_summary entry log_file) = data_lines log_file ++ [entry].
Proof.
  destruct log_file as [lines|]; simpl; [|reflexivity].
  now rewrite flat_map_app.
Qed.

Lemma main_runs_batch inp s :
  total inp = 100 -> analyze_pressed inp = true ->
  jd inp <> "" -> uploaded_files inp <> [] ->
  usage_log (main inp s)
  = log_usage_summary
      (summary inp (run_batch inp (weights_of inp) (uploaded_files inp)))
      (usage_log s).
Proof.
  intros Ht Hb Hjd Hf. unfold main. rewrite Ht, Hb. simpl.
  destruct (jd inp) as [|c rest]; [congruence|].
  destruct (uploaded_files inp) as [|f files] eqn:Hfiles; [congruence|].
  assert (Hshow : forall s', usage_log (show_results s') = usage_log s').
  { intros s'. unfold show_results.
    destruct (session_results s') as [[|r rows]|]; reflexivity. }
  rewrite Hshow. unfold analyze. simpl. rewrite Hfiles.
  now destruct (session_results s).
Qed.

(** C5, as the code has it: a batch run appends exactly one data row to the
    log, whatever the number of failures; the row counts the failures, and
    for a run with no failure its failure count is 0 and its error message
    is the text [None]; otherwise the messages joined by a semicolon and a
    blank. *)
Theorem batch_logs_one_summary_row :
  forall inp s,
    total inp = 100 -> analyze_pressed inp = true ->
    jd inp <> "" -> uploaded_files inp <> [] ->
    let b := run_batch inp (weights_of inp) (uploaded_files inp) in
    let row := summary inp b in
    data_lines (usage_log (main inp s)) = data_lines (usage_log s) ++ [row]
    /\ LogEntry.failure_count row = Z.of_nat (List.length (error_messages b))
    /\ LogEntry.success_count row = Z.of_nat (List.length (results b))
    /\ (error_messages b = [] ->
        LogEntry.failure_count row = 0 /\ LogEntry.error_message row = "None"
        /\ LogEntry.errors_occurred row = false)
    /\ (error_messages b <> [] ->
        LogEntry.error_message row = join "; " (error_messages b)).
Proof.
  intros inp s Ht Hb Hjd Hf b row.
  destruct (run_batch_spec inp (weights_of inp) (uploaded_files inp))
    as (Hr & He & Hs & Hfc).
  fold b in Hr, He, Hs, Hfc.
  split; [|split; [|split; [|split]]].
  - rewrite main_runs_batch by assumption. apply data_lines_log.
  - simpl. now rewrite Hfc, He.
  - simpl. now rewrite Hs, Hr.
  - intros Hnone. simpl. rewrite Hfc, <- He, Hnone. simpl. repeat split.
  - intros Hsome. simpl. now destruct (error_messages b).
Qed.

(** *** The weights guard *)

(** C7: when the four weights do not add up to 100, [main] shows the error
    about the total and returns: no file is read, no prompt built, the
    model is not called, and the session's results and the log stay as
    they were. *)
Theorem weights_guard_rejects_batch :
  forall inp s,
    total inp <> 100 ->
    main inp s
    = emit [StError ("Total is " ++ str_of_int (total inp)
                     ++ "%. Adjust to equal 100.")%string] s
    /\ session_results (main inp s) = session_results s
    /\ usage_log (main inp s) = usage_log s
    /\ exists shown,
         events (main inp s) = events s ++ shown
         /\ forallb (fun ev => negb (is_processing ev)) shown = true.
Proof.
  intros inp s Ht.
  assert (H : main inp s
              = emit [StError ("Total is " ++ str_of_int (total inp)
                               ++ "%. Adjust to equal 100.")%string] s).
  { unfold main. destruct (Z.eqb_spec (total inp) 100); [congruence | reflexivity]. }
  rewrite H. repeat split. eexists. split; reflexivity.
Qed.

(** *** Sorting and splitting *)

Lemma pick_seq {A : Type} (l pre : list A) :
  flat_map (fun i => match nth_error (pre ++ l) i with Some r => [r] | None => [] end)
           (seq (List.length pre) (List.length l)) = l.
Proof.
  revert pre. induction l as [|x l IH]; intros pre; simpl; [reflexivity|].
  rewrite nth_error_app2, Nat.sub_diag by lia. simpl. f_equal.
  specialize (IH (pre ++ [x])). rewrite <- app_assoc, length_app in IH. simpl in IH.
  now rewrite Nat.add_1_r in IH.
Qed.

Lemma pick_map {A B : Type} (f : A -> B) (d : B) (l : list A) (p : list nat) :
  Forall (fun i => (i < List.length l)%nat) p ->
  map f (flat_map (fun i => match nth_error l i with Some r => [r] | None => [] end) p)
  = map (fun i => nth i (map f l) d) p.
Proof.
  induction 1 as [|i p Hi _ IH]; simpl; [reflexivity|].
  rewrite map_app, IH. f_equal.
  destruct (nth_error l i) as [x|] eqn:Hx.
  - simpl. now rewrite (nth_error_nth _ _ d (map_nth_error f _ _ Hx)).
  - apply nth_error_None in Hx. lia.
Qed.

Lemma filter_split {A : Type} (keep : A -> bool) (l : list A) :
  Permutation (filter keep l ++ filter (fun x => negb (keep x)) l) l.
Proof.
  induction l as [|x l IH]; simpl; [constructor|].
  destruct (keep x); simpl.
  - now constructor.
  - apply Permutation_sym, Permutation_cons_app, Permutation_sym, IH.
Qed.

Lemma StronglySorted_filter {A : Type} (R : A -> A -> Prop) (keep : A -> bool) l :
  StronglySorted R l -> StronglySorted R (filter keep l).
Proof.
  induction 1 as [|x l Hs IH Hx]; simpl; [constructor|].
  destruct (keep x); [|exact IH].
  constructor; [exact IH|].
  apply Forall_forall. intros y Hy. apply filter_In in Hy as [Hy _].
  revert y Hy. now apply Forall_forall.
Qed.

Lemma descending_unique (l1 l2 : list Z) :
  StronglySorted Z.ge l1 -> StronglySorted Z.ge l2 -> Permutation l1 l2 -> l1 = l2.
Proof.
  intros H1. revert l2. induction H1 as [|a l1 Hs1 IH Ha]; intros l2 H2 Hp.
  - now apply Permutation_nil in Hp.
  - destruct H2 as [|b l2 Hs2 Hb].
    + apply Permutation_sym, Permutation_nil in Hp. discriminate.
    + assert (Hab : a = b).
      { assert (Hina : In a (b :: l2)) by (eapply Permutation_in; [exact Hp | now left]).
        assert (Hinb : In b (a :: l1)).
        { eapply Permutation_in; [apply Permutation_sym; exact Hp | now left]. }
        destruct Hina as [<-|Hina]; [reflexivity|].
        destruct Hinb as [->|Hinb]; [reflexivity|].
        rewrite Forall_forall in Ha, Hb.
        specialize (Ha _ Hinb). specialize (Hb _ Hina). lia. }
      subst b. f_equal. apply IH; [exact Hs2|].
      now apply Permutation_cons_inv in Hp.
Qed.

Lemma map_snd_combine_seq {A : Type} (l : list A) start :
  map snd (combine (seq start (List.length l)) l) = l.
Proof.
  revert start. induction l as [|x l IH]; intros start; simpl; [reflexivity|].
  now rewrite IH.
Qed.

Lemma map_fst_combine_seq {A : Type} (l : list A) start :
  map fst (combine (seq start (List.length l)) l) = seq start (List.length l).
Proof.
  revert start. induction l as [|x l IH]; intros start; simpl; [reflexivity|].
  now rewrite IH.
Qed.

Lemma reset_index_rows df : map snd (reset_index df) = map snd df.
Proof.
  unfold reset_index. rewrite <- (length_map snd df). apply map_snd_combine_seq.
Qed.

Lemma reset_index_labels df :
  map fst (reset_index df) = seq 0 (List.length (reset_index df)).
Proof.
  unfold reset_index. rewrite length_combine, length_seq, length_map, Nat.min_id.
  rewrite <- (length_map snd df). apply map_fst_combine_seq.
Qed.

Lemma data_frame_rows rows : map snd (data_frame rows) = rows.
Proof. apply map_snd_combine_seq. Qed.

Lemma select_rows keep df : map snd (select keep df) = filter keep (map snd df).
Proof. unfold select. now rewrite filter_map_swap. Qed.

Section Classifier.

Hypothesis argsort_sorts : sorts_descending argsort_desc.

Lemma sort_values_perm df : Permutation (sort_values df) df.
Proof.
  unfold sort_values.
  destruct (argsort_sorts (map (fun r => score (snd r)) df)) as [Hp _].
  rewrite length_map in Hp.
  rewrite (Permutation_flat_map _ Hp).
  pose proof (pick_seq df []) as H. simpl in H. now rewrite H.
Qed.

Lemma sort_values_descending df :
  StronglySorted Z.ge (map (fun r => score (snd r)) (sort_values df)).
Proof.
  unfold sort_values.
  destruct (argsort_sorts (map (fun r => score (snd r)) df)) as [Hp Hs].
  rewrite (pick_map _ 0); [exact Hs|].
  rewrite length_map in Hp.
  eapply Permutation_Forall; [apply Permutation_sym; exact Hp|].
  apply Forall_forall. intros i Hi. apply in_seq in Hi. lia.
Qed.

Lemma sorted_rows_perm rows :
  Permutation (map snd (sort_values (data_frame rows))) rows.
Proof.
  rewrite (Permutation_map snd (sort_values_perm (data_frame rows))).
  now rewrite data_frame_rows.
Qed.

Lemma sorted_rows_descending rows :
  StronglySorted Z.ge (map score (map snd (sort_values (data_frame rows)))).
Proof. rewrite map_map. apply sort_values_descending. Qed.

Lemma accepted_rows rows :
  map snd (fst (classify rows))
  = filter (fun r => (60 <=? score r)%Z) (map snd (sort_values (data_frame rows))).
Proof. unfold classify. simpl. now rewrite reset_index_rows, select_rows. Qed.

Lemma rejected_rows rows :
  map snd (snd (classify rows))
  = filter (fun r => negb (60 <=? score r)%Z)
           (map snd (sort_values (data_frame rows))).
Proof.
  unfold classify. simpl. rewrite reset_index_rows, select_rows.
  apply filter_ext. intros r. apply Z.ltb_antisym.
Qed.

(** X18: whatever order the sort of the library gives to equal scores,
    [classify] sorts the rows by score in descending order and splits the
    sorted frame at 60, each part keeping the sorted order and labelled
    from 0; every row lands in exactly one part.  For the scores 90, 60,
    59, 60 the accepted scores are 90, 60, 60 and the rejected 59. *)
Theorem classify_sorts_and_splits :
  forall rows,
    let accepted := fst (classify rows) in
    let rejected := snd (classify rows) in
    Permutation (map snd accepted ++ map snd rejected) rows
    /\ Forall (fun r => 60 <= score r) (map snd accepted)
    /\ Forall (fun r => score r < 60) (map snd rejected)
    /\ StronglySorted Z.ge (map score (map snd accepted))
    /\ StronglySorted Z.ge (map score (map snd rejected))
    /\ map fst accepted = seq 0 (List.length accepted)
    /\ map fst rejected = seq 0 (List.length rejected)
    /\ (map score rows = [90; 60; 59; 60] ->
        map score (map snd accepted) = [90; 60; 60]
        /\ map score (map snd rejected) = [59]).
Proof.
  intros rows accepted rejected. unfold accepted, rejected.
  rewrite accepted_rows, rejected_rows.
  set (sorted := map snd (sort_values (data_frame rows))).
  split.
  { rewrite filter_split. apply sorted_rows_perm. }
  split.
  { apply Forall_forall. intros r Hr. apply filter_In in Hr as [_ Hr]. lia. }
  split.
  { apply Forall_forall. intros r Hr. apply filter_In in Hr as [_ Hr]. lia. }
  split.
  { rewrite <- filter_map_swap with (f := fun n => (60 <=? n)%Z).
    apply StronglySorted_filter, sorted_rows_descending. }
  split.
  { rewrite <- filter_map_swap with (f := fun n => negb (60 <=? n)%Z).
    apply StronglySorted_filter, sorted_rows_descending. }
  split; [apply reset_index_labels|].
  split; [apply reset_index_labels|].
  intros Hscores.
  assert (Hsorted : map score sorted = [90; 60; 60; 59]).
  { apply descending_unique.
    - apply sorted_rows_descending.
    - repeat constructor; lia.
    - eapply Permutation_trans; [apply Permutation_map, sorted_rows_perm|].
      rewrite Hscores. apply perm_skip, perm_skip, perm_swap. }
  rewrite <- filter_map_swap with (f := fun n => (60 <=? n)%Z).
  rewrite <- filter_map_swap with (f := fun n => negb (60 <=? n)%Z).
  rewrite Hsorted. split; reflexivity.
Qed.

End Classifier.

Lemma show_results_nothing s :
  session_results s = None \/ session_results s = Some [] -> show_results s = s.
Proof. unfold show_results. now intros [-> | ->]. Qed.

Lemma show_results_frames s r rows :
  session_results s = Some (r :: rows) ->
  show_results s
  = emit [StDataframe (fst (classify (r :: rows)));
          StDataframe (snd (classify (r :: rows)))] s.
Proof. unfold show_results. now intros ->. Qed.

(** C10: showing the results reads the session's list and leaves it as it
    is, so classifying the same list again gives the same accepted and
    rejected frames. *)
Theorem classify_twice_same_partitions :
  forall s,
    session_results (show_results s) = session_results s
    /\ exists shown,
         events (show_results s) = events s ++ shown
         /\ events (show_results (show_results s)) = (events s ++ shown) ++ shown
         /\ (forall r rows,
               session_results s = Some (r :: rows) ->
               shown = [StDataframe (fst (classify (r :: rows)));
                        StDataframe (snd (classify (r :: rows)))]).
Proof.
  intros s. destruct (session_results s) as [[|r rows]|] eqn:Hs.
  - rewrite !(show_results_nothing s) by auto. split; [exact Hs|].
    exists []. rewrite !app_nil_r. repeat split. discriminate.
  - rewrite (show_results_frames s r rows Hs).
    rewrite (show_results_frames _ r rows) by exact Hs.
    split; [exact Hs|]. eexists. split; [reflexivity|]. split; [reflexivity|].
    intros r' rows' H. now injection H as <- <-.
  - rewrite !(show_results_nothing s) by auto. split; [exact Hs|].
    exists []. rewrite !app_nil_r. repeat split. discriminate.
Qed.

(** ** Further properties of the script *)

(** *** The API call *)

Lemma getitem_key_ok v k x :
  getitem v (Key k) = Ok x -> exists d, v = JDict d /\ lookup d k = Some x.
Proof.
  destruct v as [| | | | s | [|y l] | d]; simpl; try discriminate.
  destruct (lookup d k) as [y|] eqn:Hk; [|discriminate].
  intros H. injection H as <-. now exists d.
Qed.

Lemma getitem_first_dict v d :
  getitem v Index0 = Ok (JDict d) -> exists more, v = JList (JDict d :: more).
Proof.
  destruct v as [| | | | s | [|y l] | d']; simpl; try discriminate.
  - destruct (chars s); discriminate.
  - intros H. injection H as ->. now exists l.
Qed.

(** X1: [get_gemini_response] returns a text exactly for an answer of the
    documented shape, and the text is that of the first part of the first
    candidate, whatever other candidates, parts and keys there are; a
    failure of the exchange reaches the caller with its own message. *)
Theorem get_gemini_response_first_text :
  forall prompt api_key,
    (forall text,
        get_gemini_response prompt api_key = Ok text <->
        exists body candidate more_candidates content part more_parts,
          post_generate prompt api_key = Ok (JDict body)
          /\ lookup body "candidates" = Some (JList (JDict candidate :: more_candidates))
          /\ lookup candidate "content" = Some (JDict content)
          /\ lookup content "parts" = Some (JList (JDict part :: more_parts))
          /\ lookup part "text" = Some text)
    /\ (forall e, post_generate prompt api_key = Raise e ->
                  get_gemini_response prompt api_key = Raise e).
Proof.
  intros prompt api_key. split.
  - intros text. unfold get_gemini_response. split.
    + destruct (post_generate prompt api_key) as [body|]; simpl; [|discriminate].
      destruct (getitem body (Key "candidates")) as [candidates|] eqn:H1;
        simpl; [|discriminate].
      destruct (getitem candidates Index0) as [candidate|] eqn:H2; simpl; [|discriminate].
      destruct (getitem candidate (Key "content")) as [content|] eqn:H3;
        simpl; [|discriminate].
      destruct (getitem content (Key "parts")) as [parts|] eqn:H4; simpl; [|discriminate].
      destruct (getitem parts Index0) as [part|] eqn:H5; simpl; [|discriminate].
      intros H6.
      apply getitem_key_ok in H1 as (body' & -> & H1).
      apply getitem_key_ok in H3 as (candidate' & -> & H3).
      apply getitem_key_ok in H4 as (content' & -> & H4).
      apply getitem_key_ok in H6 as (part' & -> & H6).
      apply getitem_first_dict in H2 as (more & ->).
      apply getitem_first_dict in H5 as (more_parts & ->).
      now exists body', candidate', more, content', part', more_parts.
    + intros (body & candidate & more & content & part & more_parts
              & -> & H1 & H3 & H4 & H6).
      simpl. rewrite H1. simpl. rewrite H3. simpl. rewrite H4. simpl. now rewrite H6.
  - intros e H. unfold get_gemini_response. now rewrite H.
Qed.

(** *** File extraction *)

Lemma lower_append a b : lower (a ++ b) = (lower a ++ lower b)%string.
Proof. induction a as [|c a IH]; simpl; [reflexivity | now rewrite IH]. Qed.

Lemma lower_length a : String.length (lower a) = String.length a.
Proof. induction a as [|c a IH]; simpl; [reflexivity | now rewrite IH]. Qed.

Lemma append_length a b :
  String.length (a ++ b) = (String.length a + String.length b)%nat.
Proof. induction a as [|c a IH]; simpl; [reflexivity | now rewrite IH]. Qed.

Lemma substring_all b : substring 0 (String.length b) b = b.
Proof. induction b as [|c b IH]; simpl; [reflexivity | now rewrite IH]. Qed.

Lemma substring_append a b n m :
  substring (String.length a + n) m (a ++ b) = substring n m b.
Proof. induction a as [|c a IH]; simpl; [reflexivity | exact IH]. Qed.

Lemma endswith_append a b suffix :
  (String.length suffix <= String.length b)%nat ->
  endswith (a ++ b) suffix = endswith b suffix.
Proof.
  intros Hlen. unfold endswith. rewrite append_length.
  replace (String.length a + String.length b - String.length suffix)%nat
    with (String.length a + (String.length b - String.length suffix))%nat by lia.
  rewrite substring_append.
  destruct (Nat.leb_spec (String.length suffix) (String.length b)); [|lia].
  destruct (Nat.leb_spec (String.length suffix) (String.length a + String.length b));
    [reflexivity | lia].
Qed.

(** X2: the format is chosen by the extension of the name with case
    ignored: a name that ends in any spelling of [.pdf] goes to the PDF
    reader, one that ends in any spelling of [.docx] to the Word reader. *)
Theorem extract_text_extension_case :
  forall stem ext data,
    (lower ext = ".pdf" ->
     extract_text (UploadedFile.mk (stem ++ ext) data)
     = extract_pdf_text (UploadedFile.mk (stem ++ ext) data))
    /\ (lower ext = ".docx" ->
        extract_text (UploadedFile.mk (stem ++ ext) data)
        = extract_docx_text (UploadedFile.mk (stem ++ ext) data)).
Proof.
  intros stem ext data. unfold extract_text. simpl. rewrite lower_append.
  split; intros ->.
  - now rewrite (endswith_append _ ".pdf" ".pdf") by (simpl; lia).
  - rewrite (endswith_append _ ".docx" ".pdf") by (simpl; lia).
    now rewrite (endswith_append _ ".docx" ".docx") by (simpl; lia).
Qed.

(** *** The usage log *)

Lemma log_all_existing entries lines :
  log_all entries (Some lines) = Some (lines ++ map DataLine entries).
Proof.
  revert lines. induction entries as [|entry entries IH]; intros lines; simpl.
  - now rewrite app_nil_r.
  - unfold log_all in *. simpl. rewrite IH. now rewrite <- app_assoc.
Qed.

(** X3: the header is written once, by the call that creates the file: a
    log that starts with no file holds the header and then one row per
    call in the order of the calls, and a file that exists, even an empty
    one, only ever gets rows. *)
Theorem log_has_one_header :
  forall entry entries,
    log_all (entry :: entries) None
    = Some (HeaderLine LogEntry.keys :: map DataLine (entry :: entries))
    /\ forall lines,
         log_all (entry :: entries) (Some lines)
         = Some (lines ++ map DataLine (entry :: entries)).
Proof.
  intros entry entries. split.
  - change (log_all (entry :: entries) None)
      with (log_all entries (Some [HeaderLine LogEntry.keys; DataLine entry])).
    now rewrite log_all_existing.
  - intros lines. apply log_all_existing.
Qed.

(** *** What a batch does to the outside *)

Section Calls.

Variable inp : Inputs.
Variable weights : Dict.

Lemma process_file_calls file :
  extract_calls (fst (process_file inp weights file)) = [UploadedFile.name file]
  /\ gemini_calls (fst (process_file inp weights file)) = prompt_for inp weights file
  /\ errors_shown (fst (process_file inp weights file)) = [].
Proof.
  unfold process_file, prompt_for, then_, call, quiet.
  destruct (extract_text file) as [resume_text|]; simpl; [|auto].
  destruct (prepare_prompt _ _ _ _) as [prompt|]; simpl; [|auto].
  destruct (get_gemini_response _ _) as [response_text|]; simpl; [|auto].
  destruct (parse_response response_text) as [response_json|]; simpl; [|auto].
  destruct (result_row (UploadedFile.name file) response_json); simpl; auto.
Qed.

Lemma loop_body_calls b file :
  let b' := loop_body inp weights b file in
  extract_calls (batch_events b')
  = extract_calls (batch_events b) ++ [UploadedFile.name file]
  /\ gemini_calls (batch_events b')
     = gemini_calls (batch_events b) ++ prompt_for inp weights file
  /\ (errors_shown (batch_events b) = error_messages b ->
      errors_shown (batch_events b') = error_messages b').
Proof.
  destruct (process_file_calls file) as (He & Hg & Hs).
  unfold loop_body. destruct (process_file inp weights file) as [evs [row|e]];
    simpl in *; unfold extract_calls, gemini_calls, errors_shown in *;
    rewrite !flat_map_app, He, Hg, ?Hs.
  - rewrite app_nil_r. auto.
  - simpl. rewrite app_nil_r. split; [reflexivity|]. split; [reflexivity|].
    now intros ->.
Qed.

Lemma fold_loop_calls files : forall b,
  let b' := fold_left (loop_body inp weights) files b in
  extract_calls (batch_events b')
  = extract_calls (batch_events b) ++ map UploadedFile.name files
  /\ gemini_calls (batch_events b')
     = gemini_calls (batch_events b) ++ flat_map (prompt_for inp weights) files
  /\ (errors_shown (batch_events b) = error_messages b ->
      errors_shown (batch_events b') = error_messages b').
Proof.
  induction files as [|file files IH]; intros b; simpl.
  - rewrite !app_nil_r. auto.
  - destruct (IH (loop_body inp weights b file)) as (He & Hg & Hs).
    destruct (loop_body_calls b file) as (He' & Hg' & Hs').
    rewrite He, Hg, He', Hg', <- !app_assoc. simpl. auto.
Qed.

Lemma prompt_for_length files :
  (List.length (flat_map (prompt_for inp weights) files) <= List.length files)%nat.
Proof.
  induction files as [|file files IH]; simpl; [lia|].
  rewrite length_app. unfold prompt_for at 1.
  destruct (extract_text file); simpl; [|lia].
  destruct (prepare_prompt _ _ _ _); simpl; lia.
Qed.

(** X4: a batch calls [extract_text] once for each file, in the order of
    the files; it calls the model at most once for a file, with the prompt
    built from the text of that file, and not at all for a file whose text
    could not be extracted; and it shows one error for each error message
    it records. *)
Theorem batch_calls_each_file_once :
  forall files,
    let b := run_batch inp weights files in
    extract_calls (batch_events b) = map UploadedFile.name files
    /\ gemini_calls (batch_events b) = flat_map (prompt_for inp weights) files
    /\ (List.length (gemini_calls (batch_events b)) <= List.length files)%nat
    /\ errors_shown (batch_events b) = error_messages b
    /\ (forall file e, extract_text file = Raise e -> prompt_for inp weights file = []).
Proof.
  intros files b.
  destruct (fold_loop_calls files empty_batch) as (He & Hg & Hs).
  fold (run_batch inp weights files) in He, Hg, Hs. fold b in He, Hg, Hs.
  simpl in He, Hg. rewrite He, Hg.
  repeat split; auto using prompt_for_length.
  intros file e H. unfold prompt_for. now rewrite H.
Qed.

End Calls.

(** *** [main] as a whole *)

Lemma show_results_effect s :
  usage_log (show_results s) = usage_log s
  /\ session_results (show_results s) = session_results s
  /\ events (show_results s)
     = events s
       ++ match session_results s with
          | Some (r :: rows) => [StDataframe (fst (classify (r :: rows)));
                                 StDataframe (snd (classify (r :: rows)))]
          | _ => []
          end.
Proof.
  destruct (session_results s) as [[|r rows]|] eqn:Hs.
  - rewrite (show_results_nothing s) by auto. now rewrite app_nil_r.
  - rewrite (show_results_frames s r rows Hs). simpl. auto.
  - rewrite (show_results_nothing s) by auto. now rewrite app_nil_r.
Qed.

(** X5: unless the button is pressed with a job description and at least
    one file, a run of [main] reads no file, builds no prompt, does not
    call the model and leaves the log as it is; the session's results
    stay, or become the empty list when the session had none yet. *)
Theorem main_idle_without_request :
  forall inp s,
    analyze_pressed inp = false \/ jd inp = "" \/ uploaded_files inp = [] ->
    usage_log (main inp s) = usage_log s
    /\ (exists shown,
          events (main inp s) = events s ++ shown
          /\ forallb (fun ev => negb (is_processing ev)) shown = true)
    /\ (session_results (main inp s) = session_results s
        \/ (session_results s = None /\ session_results (main inp s) = Some [])).
Proof.
  intros inp s H. unfold main.
  destruct (negb (total inp =? 100)%Z).
  { simpl. split; [reflexivity|]. split; [|now left]. eexists. split; reflexivity. }
  set (s' := match session_results s with
             | None => {| session_results := Some []; usage_log := usage_log s;
                          events := events s |}
             | Some _ => s
             end).
  assert (Hs' : usage_log s' = usage_log s /\ events s' = events s
                /\ (session_results s' = session_results s
                    \/ (session_results s = None /\ session_results s' = Some []))).
  { unfold s'. destruct (session_results s) eqn:Hs; simpl; auto. }
  destruct Hs' as (Hlog & Hev & Hres).
  assert (Hshow : usage_log (show_results s') = usage_log s
                  /\ (exists shown,
                        events (show_results s') = events s ++ shown
                        /\ forallb (fun ev => negb (is_processing ev)) shown = true)
                  /\ (session_results (show_results s') = session_results s
                      \/ (session_results s = None
                          /\ session_results (show_results s') = Some []))).
  { destruct (show_results_effect s') as (Hl & Hr & He).
    rewrite Hl, Hr, He, Hlog, Hev. split; [reflexivity|]. split; [|exact Hres].
    eexists. split; [reflexivity|]. now destruct (session_results s') as [[|r rows]|]. }
  assert (Hwarn : forall msg,
            usage_log (emit [StWarning msg] s') = usage_log s
            /\ (exists shown,
                  events (emit [StWarning msg] s') = events s ++ shown
                  /\ forallb (fun ev => negb (is_processing ev)) shown = true)
            /\ (session_results (emit [StWarning msg] s') = session_results s
                \/ (session_results s = None
                    /\ session_results (emit [StWarning msg] s') = Some []))).
  { intros msg. simpl. rewrite Hlog, Hev. split; [reflexivity|]. split; [|exact Hres].
    eexists. split; reflexivity. }
  destruct (analyze_pressed inp); [|exact Hshow].
  destruct H as [H | [H | H]]; [discriminate | rewrite H; apply Hwarn |].
  rewrite H. destruct (jd inp); apply Hwarn.
Qed.

Lemma main_batch_effect :
  forall inp s,
    total inp = 100 -> analyze_pressed inp = true ->
    jd inp <> "" -> uploaded_files inp <> [] ->
    let b := run_batch inp (weights_of inp) (uploaded_files inp) in
    let rows := succeeded inp (weights_of inp) (uploaded_files inp) in
    session_results (main inp s) = Some rows
    /\ events (main inp s)
       = events s ++ batch_events b
         ++ match rows with
            | [] => []
            | _ :: _ => [StDataframe (fst (classify rows)); StDataframe (snd (classify rows))]
            end.
Proof.
  intros inp s Ht Hb Hjd Hf b rows. unfold main. rewrite Ht, Hb. simpl.
  destruct (jd inp) as [|c rest]; [congruence|].
  destruct (uploaded_files inp) as [|f files] eqn:Hfiles; [congruence|].
  destruct (run_batch_spec inp (weights_of inp) (f :: files)) as (Hr & _).
  fold b in Hr. fold rows in Hr.
  match goal with |- context [show_results ?x] => set (after := x) end.
  assert (Hafter : session_results after = Some rows
                   /\ events after = events s ++ batch_events b).
  { unfold after, analyze. cbn [session_results events]. rewrite Hfiles.
    fold b. rewrite Hr. now destruct (session_results s). }
  destruct Hafter as (Hres & Hev).
  destruct (show_results_effect after) as (_ & Hr' & He').
  rewrite Hr', He', Hres, Hev. split; [reflexivity|].
  rewrite <- app_assoc. now destruct rows.
Qed.

(** X6: a batch replaces the session's results: after a run with the
    button pressed, a job description and files, the session holds the
    rows of this run's files and nothing of what it held before, the
    tables show the split of these rows, and no table is shown when every
    file failed. *)
Theorem main_replaces_results :
  forall inp s,
    total inp = 100 -> analyze_pressed inp = true ->
    jd inp <> "" -> uploaded_files inp <> [] ->
    let b := run_batch inp (weights_of inp) (uploaded_files inp) in
    let rows := succeeded inp (weights_of inp) (uploaded_files inp) in
    session_results (main inp s) = Some rows
    /\ (forall s', session_results (main inp s') = session_results (main inp s))
    /\ events (main inp s)
       = events s ++ batch_events b
         ++ match rows with
            | [] => []
            | _ :: _ => [StDataframe (fst (classify rows)); StDataframe (snd (classify rows))]
            end.
Proof.
  intros inp s Ht Hb Hjd Hf b rows.
  destruct (main_batch_effect inp s Ht Hb Hjd Hf) as (Hres & Hev).
  split; [exact Hres|]. split; [|exact Hev].
  intros s'. destruct (main_batch_effect inp s' Ht Hb Hjd Hf) as (Hres' & _).
  now rewrite Hres, Hres'.
Qed.

Lemma join_length_first sep p rest :
  (String.length p <= String.length (join sep (p :: rest)))%nat.
Proof.
  destruct rest as [|q rest]; simpl; [lia|].
  rewrite append_length. lia.
Qed.

Lemma failed_head inp weights files m rest :
  failed inp weights files = m :: rest -> exists file e, m = error_msg file e.
Proof.
  induction files as [|file files IH]; simpl; [discriminate|].
  destruct (outcome inp weights file) as [row|e]; simpl; [exact IH|].
  intros H. injection H as <- _. now exists file, e.
Qed.

Lemma error_messages_not_none inp weights files m rest :
  failed inp weights files = m :: rest -> join "; " (m :: rest) <> "None".
Proof.
  intros Hf H. destruct (failed_head _ _ _ _ _ Hf) as (file & e & ->).
  pose proof (join_length_first "; " (error_msg file e) rest) as Hlen.
  rewrite H in Hlen. unfold error_msg in Hlen.
  rewrite !append_length in Hlen. simpl in Hlen. lia.
Qed.

(** X7: the row a batch logs is consistent: the success and failure counts
    add up to the number of resumes, [errors_occurred] is true exactly
    when there was a failure, and the error message is the text [None]
    exactly when there was none. *)
Theorem summary_row_is_consistent :
  forall inp weights,
    let row := summary inp (run_batch inp weights (uploaded_files inp)) in
    LogEntry.success_count row + LogEntry.failure_count row
    = LogEntry.number_of_resumes row
    /\ (LogEntry.errors_occurred row = true <-> 0 < LogEntry.failure_count row)
    /\ (LogEntry.error_message row = "None" <-> LogEntry.failure_count row = 0).
Proof.
  intros inp weights row. unfold row. simpl.
  destruct (run_batch_spec inp weights (uploaded_files inp)) as (_ & He & Hs & Hf).
  rewrite Hs, Hf, He.
  pose proof (succeeded_failed_length inp weights (uploaded_files inp)) as Hlen.
  split; [lia|]. split; [apply Z.ltb_lt|].
  destruct (failed inp weights (uploaded_files inp)) as [|m rest] eqn:Hfailed.
  - simpl. tauto.
  - split.
    + intros H. exfalso. exact (error_messages_not_none _ _ _ _ _ Hfailed H).
    + simpl. lia.
Qed.

(** *** The word count of the job description *)

Lemma space_is_ascii c : is_space c = true -> is_ascii c = true.
Proof. destruct c as [[] [] [] [] [] [] [] []]; vm_compute; congruence. Qed.

Lemma blank_text_ascii s : all_chars is_space s = true -> all_chars is_ascii s = true.
Proof. apply all_chars_weaken, space_is_ascii. Qed.

Lemma word_text_ascii w :
  all_chars (fun c => is_ascii c && negb (is_space c)) w = true ->
  all_chars is_ascii w = true.
Proof. apply all_chars_weaken. intros c H. now apply andb_true_iff in H. Qed.

Lemma lstrip_chars_blank u l :
  all_chars is_space u = true -> lstrip_chars (singles u ++ l) = lstrip_chars l.
Proof.
  induction u as [|c u IH]; [reflexivity|]. simpl.
  intros H. apply andb_true_iff in H as [Hc Hu]. rewrite Hc. now apply IH.
Qed.

Lemma rstrip_chars_blank u : all_chars is_space u = true -> rstrip_chars (singles u) = [].
Proof.
  induction u as [|c u IH]; [reflexivity|]. simpl.
  intros H. apply andb_true_iff in H as [Hc Hu].
  unfold singles in IH. now rewrite (IH Hu), Hc.
Qed.

Lemma split_chars_lstrip l : split_chars "" (lstrip_chars l) = split_chars "" l.
Proof.
  induction l as [|ch l IH]; [reflexivity|]. simpl.
  destruct (isspace ch) eqn:Hc; [exact IH|]. simpl. now rewrite Hc.
Qed.

Lemma split_chars_rstrip l : forall w, split_chars w (rstrip_chars l) = split_chars w l.
Proof.
  induction l as [|ch l IH]; intros w; [reflexivity|].
  cbn [rstrip_chars]. destruct (rstrip_chars l) as [|k kept] eqn:Hk.
  - destruct (isspace ch) eqn:Hc; simpl; rewrite Hc.
    + rewrite <- IH. now destruct w.
    + now rewrite <- IH.
  - simpl. destruct (isspace ch); [|apply IH].
    rewrite <- IH. reflexivity.
Qed.

Lemma ascii_chars_singles s : all_chars is_ascii s = true -> ascii_chars (singles s).
Proof.
  induction s as [|c s IH]; simpl; [constructor|].
  intros H. apply andb_true_iff in H as [Hc Hs].
  constructor; [now exists c | now apply IH].
Qed.

Lemma ascii_chars_lstrip l : ascii_chars l -> ascii_chars (lstrip_chars l).
Proof.
  induction 1 as [|ch l Hch Hl IH]; simpl; [constructor|].
  destruct (isspace ch); [exact IH | now constructor].
Qed.

Lemma ascii_chars_rstrip l : ascii_chars l -> ascii_chars (rstrip_chars l).
Proof.
  induction 1 as [|ch l Hch Hl IH]; simpl; [constructor|].
  destruct (rstrip_chars l) as [|k kept].
  - destruct (isspace ch); [constructor | now constructor].
  - now constructor.
Qed.

Lemma ascii_chars_text l :
  ascii_chars l -> exists s, l = singles s /\ all_chars is_ascii s = true.
Proof.
  induction 1 as [|ch l (c & -> & Hc) Hl (s & -> & Hs)].
  - now exists "".
  - exists (String c s). simpl. now rewrite Hc, Hs.
Qed.

Lemma chars_join l : ascii_chars l -> chars (join "" l) = l.
Proof.
  intros H. destruct (ascii_chars_text l H) as (s & -> & Hs).
  rewrite join_singles. now apply chars_ascii.
Qed.

Lemma split_strip_ascii s :
  all_chars is_ascii s = true -> split (strip s) = split_chars "" (singles s).
Proof.
  intros H. unfold split, strip. rewrite (chars_ascii s H), chars_join.
  - now rewrite split_chars_lstrip, split_chars_rstrip.
  - now apply ascii_chars_lstrip, ascii_chars_rstrip, ascii_chars_singles.
Qed.

Lemma split_chars_blank u l :
  all_chars is_space u = true -> split_chars "" (singles u ++ l) = split_chars "" l.
Proof.
  induction u as [|c u IH]; [reflexivity|]. simpl.
  intros H. apply andb_true_iff in H as [Hc Hu]. rewrite Hc. now apply IH.
Qed.

Lemma split_chars_word u : forall w l,
  all_chars (fun c => is_ascii c && negb (is_space c)) u = true ->
  split_chars w (singles u ++ l) = split_chars (w ++ u) l.
Proof.
  induction u as [|c u IH]; intros w l; simpl.
  - now rewrite append_empty_r.
  - intros H. apply andb_true_iff in H as [Hc Hu]. apply andb_true_iff in Hc as [_ Hc].
    apply negb_true_iff in Hc. rewrite Hc.
    unfold singles in IH. rewrite IH by exact Hu.
    now rewrite append_assoc.
Qed.

Lemma split_chars_gap u w l :
  w <> "" -> u <> "" -> all_chars is_space u = true ->
  split_chars w (singles u ++ l) = w :: split_chars "" l.
Proof.
  intros Hw Hu H. destruct u as [|c u]; [congruence|]. simpl in *.
  apply andb_true_iff in H as [Hc Hblank]. rewrite Hc.
  destruct w; [congruence|]. f_equal. now apply (split_chars_blank u l).
Qed.

Lemma split_chars_end u w :
  w <> "" -> all_chars is_space u = true -> split_chars w (singles u) = [w].
Proof.
  intros Hw H. destruct u as [|c u].
  - simpl. now destruct w.
  - rewrite <- (app_nil_r (singles (String c u))).
    rewrite split_chars_gap by (assumption || discriminate). reflexivity.
Qed.

Lemma split_chars_gapped rest trail : forall w,
  w <> "" -> all_chars is_space trail = true ->
  Forall (fun gw => is_gap (fst gw) /\ is_word (snd gw)) rest ->
  split_chars w (singles (gapped rest ++ trail)) = w :: map snd rest.
Proof.
  intros w Hw Htrail Hrest. revert w Hw.
  induction Hrest as [|[gap word] rest ((Hgap & Hblank) & Hne & Hword) _ IH]; intros w Hw.
  - simpl. now apply split_chars_end.
  - simpl in *. rewrite !append_assoc, singles_append.
    rewrite split_chars_gap by assumption. f_equal.
    rewrite singles_append, split_chars_word by exact Hword.
    apply IH. exact Hne.
Qed.

Lemma gapped_ascii rest :
  Forall (fun gw => is_gap (fst gw) /\ is_word (snd gw)) rest ->
  all_chars is_ascii (gapped rest) = true.
Proof.
  induction 1 as [|[gap word] rest ((_ & Hblank) & _ & Hword) _ IH]; [reflexivity|].
  simpl in *. rewrite !all_chars_append, IH.
  now rewrite (blank_text_ascii _ Hblank), (word_text_ascii _ Hword).
Qed.

Lemma split_words lead first rest trail :
  all_chars is_space lead = true -> all_chars is_space trail = true ->
  is_word first ->
  Forall (fun gw => is_gap (fst gw) /\ is_word (snd gw)) rest ->
  split (strip (lead ++ first ++ gapped rest ++ trail)) = first :: map snd rest.
Proof.
  intros Hlead Htrail [Hne Hfirst] Hrest.
  rewrite split_strip_ascii.
  - rewrite singles_append, split_chars_blank by exact Hlead.
    rewrite singles_append, split_chars_word by exact Hfirst.
    now apply split_chars_gapped.
  - rewrite !all_chars_append, (blank_text_ascii _ Hlead), (blank_text_ascii _ Htrail).
    now rewrite (word_text_ascii _ Hfirst), (gapped_ascii _ Hrest).
Qed.

Lemma word_count_blank text : all_chars is_space text = true -> word_count text = 0.
Proof.
  intros H. unfold word_count. rewrite split_strip_ascii by now apply blank_text_ascii.
  rewrite <- (app_nil_r (singles text)), split_chars_blank by exact H. reflexivity.
Qed.

(** X8: the logged word count of the job description is the number of its
    words: for a text of ASCII made of a word, then any number of words
    each after its own gap of blanks, with blanks or nothing before and
    after, [jd.strip().split()] gives these words in order and the count
    is their number; for a text of blanks only the count is 0. *)
Theorem word_count_counts_words :
  (forall lead first rest trail,
      all_chars is_space lead = true -> all_chars is_space trail = true ->
      is_word first ->
      Forall (fun gw => is_gap (fst gw) /\ is_word (snd gw)) rest ->
      split (strip (lead ++ first ++ gapped rest ++ trail)) = first :: map snd rest
      /\ word_count (lead ++ first ++ gapped rest ++ trail)
         = Z.of_nat (List.length (first :: map snd rest)))
  /\ (forall text, all_chars is_space text = true -> word_count text = 0).
Proof.
  split.
  - intros lead first rest trail Hlead Htrail Hfirst Hrest.
    pose proof (split_words lead first rest trail Hlead Htrail Hfirst Hrest) as H.
    split; [exact H|]. unfold word_count. now rewrite H.
  - exact word_count_blank.
Qed.

(** X9: the guard on the job description only refuses the empty text: with
    a job description of blanks only the batch runs, every file is read,
    and the logged row counts 0 words. *)
Theorem blank_jd_is_processed :
  forall inp s,
    total inp = 100 -> analyze_pressed inp = true -> uploaded_files inp <> [] ->
    jd inp <> "" -> all_chars is_space (jd inp) = true ->
    exists row,
      data_lines (usage_log (main inp s)) = data_lines (usage_log s) ++ [row]
      /\ LogEntry.jd_length_words row = 0
      /\ LogEntry.number_of_resumes row = Z.of_nat (List.length (uploaded_files inp))
      /\ exists shown,
           events (main inp s) = events s ++ shown
           /\ extract_calls shown = map UploadedFile.name (uploaded_files inp).
Proof.
  intros inp s Ht Hb Hf Hjd Hblank.
  exists (summary inp (run_batch inp (weights_of inp) (uploaded_files inp))).
  split; [rewrite main_runs_batch by assumption; apply data_lines_log|].
  split; [simpl; now apply word_count_blank|].
  split; [reflexivity|].
  destruct (main_batch_effect inp s Ht Hb Hjd Hf) as (_ & Hev).
  cbv zeta in Hev. rewrite Hev. eexists. split; [reflexivity|].
  unfold extract_calls. rewrite flat_map_app.
  fold (extract_calls (batch_events (run_batch inp (weights_of inp) (uploaded_files inp)))).
  destruct (fold_loop_calls inp (weights_of inp) (uploaded_files inp) empty_batch)
    as (Hcalls & _).
  cbv zeta in Hcalls. simpl in Hcalls.
  fold (run_batch inp (weights_of inp) (uploaded_files inp)) in Hcalls. rewrite Hcalls.
  destruct (succeeded inp (weights_of inp) (uploaded_files inp)); simpl;
    now rewrite app_nil_r.
Qed.

(** *** The colour of a score *)

(** X10: the colours follow the split: the score cell of every accepted row
    is green or khaki, that of every rejected row is coral, whatever order
    the sort gives. *)
Theorem colours_follow_the_split :
  forall rows,
    Forall (fun r => cell_style r = "background-color: lightgreen"
                     \/ cell_style r = "background-color: khaki")
           (map snd (fst (classify rows)))
    /\ Forall (fun r => cell_style r = "background-color: lightcoral")
              (map snd (snd (classify rows))).
Proof.
  intros rows. rewrite accepted_rows, rejected_rows. split.
  - apply Forall_forall. intros r Hr. apply filter_In in Hr as [_ Hr].
    unfold cell_style, highlight_score. simpl. rewrite Hr.
    destruct (80 <=? score r)%Z; auto.
  - apply Forall_forall. intros r Hr. apply filter_In in Hr as [_ Hr].
    apply negb_true_iff in Hr.
    unfold cell_style, highlight_score. simpl. rewrite Hr.
    destruct (Z.leb_spec 80 (score r)); [|reflexivity].
    apply Z.leb_gt in Hr. lia.
Qed.

(** *** Scores that are not integers *)

Lemma result_row_score file_name response_json sb n items :
  get response_json "score_breakdown" (JDict []) = JDict sb ->
  py_int (get response_json "score" (JInt 0)) = Some n ->
  join_items (get response_json "skills_matched" (JList [])) = Some items ->
  exists row,
    result_row file_name response_json = Ok row
    /\ score row = n /\ filename row = file_name
    /\ skills_matched row = join ", " items.
Proof.
  intros Hsb Hn Hj. unfold result_row. rewrite Hsb. simpl. rewrite Hn. simpl.
  rewrite Hj. simpl. eexists. repeat split.
Qed.

Lemma int_blank_is_ascii c : is_int_blank c = true -> is_ascii c = true.
Proof. destruct c as [[] [] [] [] [] [] [] []]; vm_compute; congruence. Qed.

Lemma int_char_blank c :
  is_int_blank c = true -> int_char (codepoint (single c)) = Blank.
Proof. destruct c as [[] [] [] [] [] [] [] []]; vm_compute; congruence. Qed.

Lemma int_chars_ascii s :
  all_chars is_ascii s = true ->
  int_chars s = map (fun c => int_char (codepoint (single c))) (list_ascii_of_string s).
Proof.
  intros H. unfold int_chars. rewrite (chars_ascii s H). unfold singles.
  now rewrite !map_map.
Qed.

Lemma int_chars_blank u :
  all_chars is_int_blank u = true ->
  int_chars u = repeat Blank (String.length u).
Proof.
  intros H. rewrite int_chars_ascii by (eapply all_chars_weaken; [apply int_blank_is_ascii | exact H]).
  induction u as [|c u IH]; [reflexivity|].
  cbn [list_ascii_of_string map String.length repeat all_chars] in *.
  apply andb_true_iff in H as [Hc Hu]. now rewrite (int_char_blank c Hc), (IH Hu).
Qed.

Lemma int_chars_append a b :
  all_chars is_ascii a = true -> all_chars is_ascii b = true ->
  int_chars (a ++ b) = int_chars a ++ int_chars b.
Proof.
  intros Ha Hb. rewrite !int_chars_ascii; try assumption.
  - rewrite <- map_app. f_equal.
    clear. induction a as [|c a IH]; simpl; [reflexivity | now rewrite IH].
  - now rewrite all_chars_append, Ha, Hb.
Qed.

Lemma skip_blanks_repeat n l : skip_blanks (repeat Blank n ++ l) = skip_blanks l.
Proof. induction n as [|n IH]; [reflexivity | exact IH]. Qed.

Lemma digits_end acc count n :
  digits acc count true (repeat Blank n) = Some (acc, count).
Proof.
  destruct n as [|n]; [reflexivity|]. simpl.
  rewrite <- (app_nil_r (repeat Blank n)), skip_blanks_repeat. reflexivity.
Qed.

Lemma uint_text_ascii d : all_chars is_ascii (NilEmpty.string_of_uint d) = true.
Proof. induction d; simpl; auto. Qed.

Lemma uint_chars_step c d :
  is_ascii c = true ->
  int_chars (String c (NilEmpty.string_of_uint d))
  = int_char (codepoint (single c)) :: int_chars (NilEmpty.string_of_uint d).
Proof.
  intros Hc. rewrite !int_chars_ascii; [reflexivity | apply uint_text_ascii |].
  simpl. now rewrite Hc, uint_text_ascii.
Qed.

Ltac digit_step :=
  rewrite uint_chars_step by reflexivity; cbn [app];
  match goal with
  | |- context [int_char ?x] =>
      let v := eval vm_compute in (int_char x) in change (int_char x) with v
  end;
  cbn [digits]; rewrite Nat2Z.inj_succ, <- Z.add_1_l, Z.add_assoc.

Lemma digits_acc d : forall p count tail,
  digits (Z.pos p) count true (int_chars (NilEmpty.string_of_uint d) ++ tail)
  = digits (Z.pos (Pos.of_uint_acc d p))
           (count + Z.of_nat (String.length (NilEmpty.string_of_uint d))) true tail.
Proof.
  induction d; intros p count tail;
    cbn [NilEmpty.string_of_uint Pos.of_uint_acc String.length];
    [simpl; now rewrite Z.add_0_r | ..];
    digit_step; rewrite <- IHd; f_equal; lia.
Qed.

Lemma digits_zeros d : forall count tail,
  digits 0 count true (int_chars (NilEmpty.string_of_uint d) ++ tail)
  = digits (Z.of_N (Pos.of_uint d))
           (count + Z.of_nat (String.length (NilEmpty.string_of_uint d))) true tail.
Proof.
  induction d; intros count tail;
    cbn [NilEmpty.string_of_uint Pos.of_uint String.length];
    [simpl; now rewrite Z.add_0_r | ..];
    digit_step;
    try (cbn [Z.of_N]; rewrite <- digits_acc; reflexivity).
  apply IHd.
Qed.

Lemma digits_uint d : forall count b tail,
  d <> Decimal.Nil ->
  digits 0 count b (int_chars (NilEmpty.string_of_uint d) ++ tail)
  = digits (Z.of_N (Pos.of_uint d))
           (count + Z.of_nat (String.length (NilEmpty.string_of_uint d))) true tail.
Proof.
  intros count b tail Hd. rewrite <- digits_zeros.
  destruct d; [congruence | ..];
    cbn [NilEmpty.string_of_uint]; rewrite uint_chars_step by reflexivity; cbn [app];
    match goal with
    | |- context [int_char ?x] =>
        let v := eval vm_compute in (int_char x) in change (int_char x) with v
    end; reflexivity.
Qed.

Lemma int_of_str_decimal n lead trail :
  all_chars is_int_blank lead = true -> all_chars is_int_blank trail = true ->
  Z.of_nat (String.length (str_of_int (Z.abs n))) <= max_str_digits ->
  int_of_str (lead ++ str_of_int n ++ trail) = Some n.
Proof.
  intros Hlead Htrail Hlen.
  assert (Hal : all_chars is_ascii lead = true).
  { eapply all_chars_weaken; [apply int_blank_is_ascii | exact Hlead]. }
  assert (Hat : all_chars is_ascii trail = true).
  { eapply all_chars_weaken; [apply int_blank_is_ascii | exact Htrail]. }
  assert (Hpos : forall p,
            NilZero.string_of_uint (Pos.to_uint p)
            = NilEmpty.string_of_uint (Pos.to_uint p)).
  { intros p. pose proof (Unsigned.to_uint_nonnil p) as Hnn.
    now destruct (Pos.to_uint p). }
  assert (Hval : forall p sign,
            Z.of_nat (String.length (NilEmpty.string_of_uint (Pos.to_uint p)))
            <= max_str_digits ->
            signed_digits sign (int_chars (NilEmpty.string_of_uint (Pos.to_uint p))
                                ++ int_chars trail)
            = Some (sign * Z.pos p)).
  { intros p sign Hp. unfold signed_digits.
    rewrite digits_uint by apply Unsigned.to_uint_nonnil.
    rewrite Unsigned.of_to, (int_chars_blank trail Htrail), digits_end. cbn [Z.of_N].
    rewrite Z.add_0_l. now apply Z.leb_le in Hp as ->. }
  assert (Hhead : forall p, exists d rest,
            int_chars (NilEmpty.string_of_uint (Pos.to_uint p)) ++ int_chars trail
            = Digit d :: rest).
  { intros p. pose proof (Unsigned.to_uint_nonnil p) as Hnn.
    destruct (Pos.to_uint p); [congruence | ..];
      cbn [NilEmpty.string_of_uint]; rewrite uint_chars_step by reflexivity; cbn [app];
      match goal with
      | |- context [int_char ?x] =>
          let v := eval vm_compute in (int_char x) in change (int_char x) with v
      end; eexists; eexists; reflexivity. }
  unfold int_of_str.
  destruct n as [|p|p].
  - change (str_of_int 0) with "0".
    rewrite !int_chars_append, (int_chars_blank lead Hlead), skip_blanks_repeat,
      (int_chars_blank trail Htrail) by (assumption || reflexivity).
    change (int_chars "0") with [Digit 0]. cbn [app skip_blanks].
    unfold signed_digits. cbn [digits]. rewrite digits_end. reflexivity.
  - change (Z.abs (Z.pos p)) with (Z.pos p) in Hlen.
    change (str_of_int (Z.pos p)) with (NilZero.string_of_uint (Pos.to_uint p)) in *.
    rewrite Hpos in *.
    rewrite !int_chars_append, (int_chars_blank lead Hlead), skip_blanks_repeat
      by (assumption || apply uint_text_ascii
          || (rewrite all_chars_append, uint_text_ascii; exact Hat)).
    destruct (Hhead p) as (d & rest & Hd). rewrite Hd. cbn [skip_blanks]. rewrite <- Hd.
    now rewrite (Hval p 1 Hlen).
  - change (Z.abs (Z.neg p)) with (Z.pos p) in Hlen.
    change (str_of_int (Z.pos p)) with (NilZero.string_of_uint (Pos.to_uint p)) in Hlen.
    change (str_of_int (Z.neg p))
      with (String "-" (NilZero.string_of_uint (Pos.to_uint p))).
    rewrite Hpos in *.
    change (String "-" (NilEmpty.string_of_uint (Pos.to_uint p)))
      with ("-" ++ NilEmpty.string_of_uint (Pos.to_uint p))%string.
    rewrite !int_chars_append, (int_chars_blank lead Hlead), skip_blanks_repeat
      by (assumption || reflexivity || apply uint_text_ascii
          || (rewrite ?all_chars_append, ?uint_text_ascii; simpl; exact Hat)).
    change (int_chars "-") with [Minus]. cbn [app skip_blanks].
    now rewrite (Hval p (-1) Hlen).
Qed.

(** X11: a score the model gives as text is read as a number: for a parsed
    response whose score is the decimal text of an integer of at most 4300
    digits, with or without blanks of C around it (tab, line feed,
    vertical tab, form feed, carriage return, space), the row has that
    integer as its score. *)
Theorem score_given_as_text :
  forall text response_json file_name n lead trail items,
    parse_json_response text = Ok response_json ->
    Z.of_nat (String.length (str_of_int (Z.abs n))) <= max_str_digits ->
    lookup response_json "score" = Some (JStr (lead ++ str_of_int n ++ trail)) ->
    all_chars is_int_blank lead = true -> all_chars is_int_blank trail = true ->
    join_items (get response_json "skills_matched" (JList [])) = Some items ->
    exists row,
      result_row file_name response_json = Ok row /\ score row = n.
Proof.
  intros text response_json file_name n lead trail items Hp Hlen Hs Hlead Htrail Hj.
  destruct (parse_json_response_breakdown _ _ Hp) as [sb Hsb].
  destruct (result_row_score file_name response_json sb n items Hsb) as (row & Hrow & Hn & _).
  - unfold get. rewrite Hs. simpl. now apply int_of_str_decimal.
  - exact Hj.
  - now exists row.
Qed.

(** X12: a score the model gives with a fraction is cut towards zero, not
    rounded: for a parsed response whose score is the finite float
    [(-1)^sign * m * 2^e], the score of the row has the sign of the float
    and its magnitude is the integer part of [m * 2^e]. *)
Theorem score_given_as_float :
  forall text response_json file_name sign m e items,
    parse_json_response text = Ok response_json ->
    lookup response_json "score" = Some (JFloat (S754_finite sign m e)) ->
    join_items (get response_json "skills_matched" (JList [])) = Some items ->
    exists row,
      result_row file_name response_json = Ok row
      /\ score row = (if sign then - Z.abs (score row) else Z.abs (score row))
      /\ (0 <= e -> Z.abs (score row) = Z.pos m * 2 ^ e)
      /\ (e < 0 ->
          Z.abs (score row) * 2 ^ (- e) <= Z.pos m
          < (Z.abs (score row) + 1) * 2 ^ (- e)).
Proof.
  intros text response_json file_name sign m e items Hp Hs Hj.
  destruct (parse_json_response_breakdown _ _ Hp) as [sb Hsb].
  destruct (result_row_score file_name response_json sb
              (if sign then - Z.shiftl (Z.pos m) e else Z.shiftl (Z.pos m) e)
              items Hsb) as (row & Hrow & Hn & _).
  - unfold get. now rewrite Hs.
  - exact Hj.
  - exists row. split; [exact Hrow|]. rewrite Hn.
    assert (Hnonneg : 0 <= Z.shiftl (Z.pos m) e) by (apply Z.shiftl_nonneg; lia).
    assert (Habs : Z.abs (if sign then - Z.shiftl (Z.pos m) e else Z.shiftl (Z.pos m) e)
                   = Z.shiftl (Z.pos m) e) by (destruct sign; lia).
    rewrite Habs. split; [now destruct sign|]. split.
    + intros He. now apply Z.shiftl_mul_pow2.
    + intros He. rewrite Z.shiftl_div_pow2 by lia.
      assert (Hpow : 0 < 2 ^ (- e)) by (apply Z.pow_pos_nonneg; lia).
      pose proof (Z.mul_div_le (Z.pos m) (2 ^ (- e)) Hpow).
      pose proof (Z.mul_succ_div_gt (Z.pos m) (2 ^ (- e)) Hpow).
      lia.
Qed.

(** *** Extraction failures as the user sees them *)

(** X13: of a file that cannot be read the batch records one message with
    the name of the file: [Unsupported file format] for a name with
    neither extension, the message of the Word reader after
    [Error reading Word document: ] for a Word file, and the message of
    the PDF reader as it is for a PDF file. *)
Theorem extraction_failure_messages :
  forall inp weights file,
    let name := UploadedFile.name file in
    (endswith (lower name) ".pdf" = false -> endswith (lower name) ".docx" = false ->
     error_messages (run_batch inp weights [file])
     = [(name ++ " ❌ Unsupported file format")%string])
    /\ (forall e,
          endswith (lower name) ".pdf" = false -> endswith (lower name) ".docx" = true ->
          docx_paragraphs file = Raise e ->
          error_messages (run_batch inp weights [file])
          = [(name ++ " ❌ Error reading Word document: " ++ e)%string])
    /\ (forall e,
          endswith (lower name) ".pdf" = true ->
          pdf_page_texts file = Raise e ->
          error_messages (run_batch inp weights [file])
          = [(name ++ " ❌ " ++ e)%string]).
Proof.
  intros inp weights file name.
  assert (H : forall e, extract_text file = Raise e ->
                        error_messages (run_batch inp weights [file])
                        = [(name ++ " ❌ " ++ e)%string]).
  { intros e He.
    destruct (run_batch_spec inp weights [file]) as (_ & Hm & _). rewrite Hm.
    unfold failed. simpl. rewrite outcome_steps, He. reflexivity. }
  unfold extract_text, extract_pdf_text, extract_docx_text in H. fold name in H.
  split; [|split].
  - intros Hpdf Hdocx. apply H. now rewrite Hpdf, Hdocx.
  - intros e Hpdf Hdocx He. apply H. now rewrite Hpdf, Hdocx, He.
  - intros e Hpdf He. apply H. now rewrite Hpdf, He.
Qed.

End App.

(** ** The summary of the job description *)

Lemma lower_char_digit c : is_digit (lower_char c) = is_digit c.
Proof. destruct c as [[] [] [] [] [] [] [] []]; reflexivity. Qed.

Lemma lower_char_space c : is_space (lower_char c) = is_space c.
Proof. destruct c as [[] [] [] [] [] [] [] []]; reflexivity. Qed.

Lemma lower_char_idem c : lower_char (lower_char c) = lower_char c.
Proof. destruct c as [[] [] [] [] [] [] [] []]; reflexivity. Qed.

Lemma first_bytes_append a rest :
  first_bytes (String.length (a ++ rest) - String.length rest) (a ++ rest) = a.
Proof.
  rewrite append_length, Nat.add_sub.
  induction a as [|c a IH]; simpl; [now destruct rest | now rewrite IH].
Qed.

Lemma stops_after (skip ok : ascii -> bool) u s :
  (forall c, skip c = true -> ok c = false) ->
  all_chars skip u = true -> stops ok s = true -> stops ok (u ++ s) = true.
Proof.
  intros Hclass. destruct u as [|c u]; simpl; [auto|].
  intros H _. apply andb_true_iff in H as [Hc _]. now rewrite (Hclass c Hc).
Qed.

Lemma stops_at (skip ok : ascii -> bool) u s :
  (forall c, skip c = true -> ok c = false) ->
  u <> "" -> all_chars skip u = true -> stops ok (u ++ s) = true.
Proof.
  intros Hclass. destruct u as [|c u]; simpl; [congruence|].
  intros _ H. apply andb_true_iff in H as [Hc _]. now rewrite (Hclass c Hc).
Qed.

(** A greedy repetition takes the whole run when what follows accepts. *)
Lemma many_takes_all {A : Type} ok (k : string -> option A) u s x :
  all_chars ok u = true -> stops ok s = true -> k s = Some x ->
  many ok k (u ++ s) = Some x.
Proof.
  intros Hu Hs Hk. induction u as [|c u IH]; simpl in *.
  - destruct s as [|d s]; [exact Hk|]. simpl in *.
    apply negb_true_iff in Hs. now rewrite Hs.
  - apply andb_true_iff in Hu as [Hc Hu]. now rewrite Hc, (IH Hu).
Qed.

Lemma plus_takes_all {A : Type} ok (k : string -> Captures -> option A) u s caps x :
  u <> "" -> all_chars ok u = true -> stops ok s = true -> k s caps = Some x ->
  run (plus ok) (u ++ s) caps k = Some x.
Proof.
  intros Hne Hu Hs Hk. destruct u as [|c u]; [congruence|].
  simpl in *. apply andb_true_iff in Hu as [Hc Hu]. rewrite Hc.
  now apply many_takes_all.
Qed.

Lemma run_ilit {A : Type} w : forall u s caps (k : string -> Captures -> option A),
  lower u = lower w -> run (ilit w) (u ++ s) caps k = k s caps.
Proof.
  induction w as [|c w IH]; intros u s caps k H.
  - destruct u; [reflexivity | discriminate].
  - destruct u as [|x u]; [discriminate|]. simpl in H. injection H as Hx Hu.
    simpl. rewrite Hx, Ascii.eqb_refl. now apply IH.
Qed.

Lemma run_ilit_fails {A : Type} w : forall s caps (k : string -> Captures -> option A),
  startswith (lower s) (lower w) = false -> run (ilit w) s caps k = None.
Proof.
  induction w as [|c w IH]; intros s caps k H.
  - destruct s; discriminate.
  - destruct s as [|x s]; [reflexivity|]. simpl in *.
    destruct (Ascii.eqb (lower_char x) (lower_char c)); [|reflexivity].
    now apply IH.
Qed.

(** The search passes over every start at which the pattern fails. *)
Lemma search_skips r pre s :
  (forall a t, pre = (a ++ t)%string -> t <> "" ->
               run r (t ++ s) [] (fun _ caps => Some caps) = None) ->
  search r (pre ++ s) = search r s.
Proof.
  intros H. induction pre as [|c pre IH]; [reflexivity|].
  change (search r (String c pre ++ s))
    with (match run r (String c pre ++ s) [] (fun _ caps => Some caps) with
          | Some caps => Some caps
          | None => search r (pre ++ s)
          end).
  rewrite (H EmptyString (String c pre)) by (reflexivity || discriminate).
  apply IH. intros a t -> Ht. apply (H (String c a) t); [reflexivity | exact Ht].
Qed.

Lemma search_none r s :
  (forall a t, s = (a ++ t)%string ->
               run r t [] (fun _ caps => Some caps) = None) ->
  search r s = None.
Proof.
  intros H. induction s as [|c s IH].
  - simpl. now rewrite (H EmptyString EmptyString).
  - change (search r (String c s))
      with (match run r (String c s) [] (fun _ caps => Some caps) with
            | Some caps => Some caps
            | None => search r s
            end).
    rewrite (H EmptyString (String c s)) by reflexivity.
    apply IH. intros a t ->. now apply (H (String c a) t).
Qed.

Lemma all_chars_stops ok s :
  all_chars (fun c => negb (ok c)) s = true -> stops ok s = true.
Proof. destruct s; simpl; [reflexivity|]. intros H. now apply andb_true_iff in H. Qed.

Lemma range_needs_digit {A : Type} t caps (k : string -> Captures -> option A) :
  stops is_digit t = true -> run exp_range_re t caps k = None.
Proof.
  destruct t as [|c t]; [reflexivity|]. unfold exp_range_re, plus. cbn [run stops].
  intros H. apply negb_true_iff in H. now rewrite H.
Qed.

Lemma figure_needs_digit {A : Type} t caps (k : string -> Captures -> option A) :
  stops is_digit t = true -> run exp_match_re t caps k = None.
Proof.
  destruct t as [|c t]; [reflexivity|]. unfold exp_match_re, plus. cbn [run stops].
  intros H. apply negb_true_iff in H. now rewrite H.
Qed.

(** X14: a job description with no figure has no experience to report: the
    summary says [Not specified]. *)
Theorem jd_experience_without_figures :
  forall jd_text,
    all_chars is_ascii jd_text = true ->
    all_chars (fun c => negb (is_digit c)) jd_text = true ->
    jd_experience jd_text = "Not specified".
Proof.
  intros jd_text _ H. unfold jd_experience, extract_comparison_data. cbn [fst].
  assert (Hstop : forall a t, jd_text = (a ++ t)%string -> stops is_digit t = true).
  { intros a t ->. rewrite all_chars_append in H.
    apply andb_true_iff in H as [_ H]. now apply all_chars_stops. }
  rewrite !search_none; [reflexivity | |].
  - intros a t Hs. apply figure_needs_digit. now apply (Hstop a).
  - intros a t Hs. apply range_needs_digit. now apply (Hstop a).
Qed.

Lemma contains_suffix w a t : contains w (a ++ t) = false -> startswith t w = false.
Proof.
  induction a as [|c a IH]; simpl.
  - destruct t; simpl; intros H; now apply orb_false_iff in H.
  - intros H. apply orb_false_iff in H as [_ H]. now apply IH.
Qed.

(** X15: a job description that does not have the word qualification, in
    any case, has no qualification to report: the summary says
    [Not specified]. *)
Theorem jd_qualification_not_mentioned :
  forall jd_text,
    all_chars is_ascii jd_text = true ->
    contains "qualification" (lower jd_text) = false ->
    jd_qualification jd_text = "Not specified".
Proof.
  intros jd_text _ H. unfold jd_qualification, extract_comparison_data. cbn [snd].
  rewrite search_none; [reflexivity|].
  intros a t ->. unfold edu_re. cbn [run]. apply run_ilit_fails.
  rewrite lower_append in H. now apply contains_suffix in H.
Qed.

Lemma search_here r s caps :
  run r s [] (fun _ caps => Some caps) = Some caps -> search r s = Some caps.
Proof. intros H. destruct s; simpl; now rewrite H. Qed.

Lemma digit_not_space c : is_digit c = true -> is_space c = false.
Proof. destruct c as [[] [] [] [] [] [] [] []]; vm_compute; congruence. Qed.

Lemma space_not_digit c : is_space c = true -> is_digit c = false.
Proof. destruct c as [[] [] [] [] [] [] [] []]; vm_compute; congruence. Qed.

Lemma stops_word (ok : ascii -> bool) u c w s :
  (forall x, ok (lower_char x) = ok x) ->
  lower u = String c w -> ok c = false -> stops ok (u ++ s) = true.
Proof.
  intros Hok H Hc. destruct u as [|x u]; [discriminate|]. simpl in *.
  injection H as Hx _. now rewrite <- Hok, Hx, Hc.
Qed.

Lemma run_range_separator {A : Type} sep rest caps
      (k : string -> Captures -> option A) x :
  lower sep = "to" \/ sep = "–" \/ sep = "-" ->
  k rest caps = Some x ->
  run (Alt (ilit "to") (Alt (ilit "–") (ilit "-"))) (sep ++ rest) caps k = Some x.
Proof.
  intros [H | [-> | ->]] Hk; cbn [run].
  - now rewrite (run_ilit "to" sep rest caps k H), Hk.
  - rewrite (run_ilit_fails "to") by reflexivity.
    now rewrite (run_ilit "–" "–" rest caps k eq_refl), Hk.
  - rewrite (run_ilit_fails "to") by reflexivity.
    rewrite (run_ilit_fails "–") by reflexivity.
    now rewrite (run_ilit "-" "-" rest caps k eq_refl), Hk.
Qed.

Lemma range_separator_stops (ok : ascii -> bool) sep rest :
  (forall x, ok (lower_char x) = ok x) ->
  ok "t"%char = false -> ok "226"%char = false -> ok "-"%char = false ->
  lower sep = "to" \/ sep = "–" \/ sep = "-" ->
  stops ok (sep ++ rest) = true.
Proof.
  intros Hok Ht Hdash Hminus [H | [-> | ->]].
  - now apply (stops_word ok sep "t" "o").
  - simpl. now rewrite Hdash.
  - simpl. now rewrite Hminus.
Qed.

Lemma run_exp_range a ws1 sep ws2 b ws3 unit tail :
  a <> "" -> all_chars is_digit a = true ->
  b <> "" -> all_chars is_digit b = true ->
  all_chars is_space ws1 = true -> all_chars is_space ws2 = true ->
  all_chars is_space ws3 = true ->
  lower sep = "to" \/ sep = "–" \/ sep = "-" ->
  lower unit = "years" ->
  run exp_range_re (a ++ ws1 ++ sep ++ ws2 ++ b ++ ws3 ++ unit ++ tail) []
      (fun _ caps => Some caps)
  = Some [(2%nat, b); (1%nat, a)].
Proof.
  intros Ha Hda Hb Hdb Hw1 Hw2 Hw3 Hsep Hunit.
  assert (Hunit_digit : stops is_digit (unit ++ tail) = true).
  { now apply (stops_word is_digit unit "y" "ears"); [apply lower_char_digit | |]. }
  assert (Hunit_space : stops is_space (unit ++ tail) = true).
  { now apply (stops_word is_space unit "y" "ears"); [apply lower_char_space | |]. }
  unfold exp_range_re. cbn [run].
  apply plus_takes_all; [exact Ha | exact Hda | |].
  { apply (stops_after is_space); [apply space_not_digit | exact Hw1 |].
    now apply range_separator_stops; [apply lower_char_digit | | | |]. }
  rewrite first_bytes_append.
  apply many_takes_all; [exact Hw1 | |].
  { now apply range_separator_stops; [apply lower_char_space | | | |]. }
  apply run_range_separator; [exact Hsep|]. cbn [run].
  apply many_takes_all; [exact Hw2 | |].
  { now apply (stops_at is_digit); [apply digit_not_space | |]. }
  apply plus_takes_all; [exact Hb | exact Hdb | |].
  { now apply (stops_after is_space); [apply space_not_digit | |]. }
  rewrite first_bytes_append.
  apply many_takes_all; [exact Hw3 | exact Hunit_space |].
  now rewrite (run_ilit "years" unit tail _ _ Hunit).
Qed.

(** X16: a range of years is reported in one form: when the first figure
    of the job description starts a range, two figures with [to], a
    hyphen or a dash between them and [years] in any case after them,
    blanks or not around the parts, the experience of the summary is the
    two figures with [ to ] between them and [ years] after them. *)
Theorem jd_experience_range :
  forall pre a ws1 sep ws2 b ws3 unit tail,
    all_chars (fun c => is_ascii c && negb (is_digit c)) pre = true ->
    a <> "" -> all_chars is_digit a = true ->
    b <> "" -> all_chars is_digit b = true ->
    all_chars is_space ws1 = true -> all_chars is_space ws2 = true ->
    all_chars is_space ws3 = true ->
    lower sep = "to" \/ sep = "–" \/ sep = "-" ->
    lower unit = "years" ->
    jd_experience (pre ++ a ++ ws1 ++ sep ++ ws2 ++ b ++ ws3 ++ unit ++ tail)
    = (a ++ " to " ++ b ++ " years")%string.
Proof.
  intros pre a ws1 sep ws2 b ws3 unit tail Hpre Ha Hda Hb Hdb Hw1 Hw2 Hw3 Hsep Hunit.
  unfold jd_experience, extract_comparison_data. cbn [fst].
  rewrite search_skips.
  - rewrite (search_here _ _ _ (run_exp_range a ws1 sep ws2 b ws3 unit tail
                                  Ha Hda Hb Hdb Hw1 Hw2 Hw3 Hsep Hunit)).
    reflexivity.
  - intros x t -> Ht. apply range_needs_digit.
    rewrite all_chars_append in Hpre. apply andb_true_iff in Hpre as [_ Hpre].
    apply (stops_at (fun c => is_ascii c && negb (is_digit c))); [| exact Ht | exact Hpre].
    intros c Hc. apply andb_true_iff in Hc as [_ Hc]. now apply negb_true_iff.
Qed.

Lemma run_opt_taken {A : Type} ok c rest caps (k : string -> Captures -> option A) x :
  ok c = true -> k rest caps = Some x ->
  run (opt (Char ok)) (String c rest) caps k = Some x.
Proof. intros Hc Hk. unfold opt. cbn [run]. now rewrite Hc, Hk. Qed.

Lemma run_opt_skipped {A : Type} ok s caps (k : string -> Captures -> option A) :
  stops ok s = true -> run (opt (Char ok)) s caps k = k s caps.
Proof.
  intros H. unfold opt. cbn [run]. destruct s as [|c s]; [reflexivity|].
  simpl in H. apply negb_true_iff in H. now rewrite H.
Qed.

Lemma run_edu a ws1 punct ws2 value tail :
  lower a = "qualification" ->
  all_chars is_space ws1 = true -> all_chars is_space ws2 = true ->
  punct = "" \/ punct = ":" \/ punct = "-" ->
  value <> "" ->
  all_chars (fun c => negb (Ascii.eqb c "010" || Ascii.eqb c ",")) value = true ->
  stops (fun c => is_space c || Ascii.eqb c ":" || Ascii.eqb c "-") value = true ->
  stops (fun c => negb (Ascii.eqb c "010" || Ascii.eqb c ",")) tail = true ->
  run edu_re (a ++ ws1 ++ punct ++ ws2 ++ value ++ tail) [] (fun _ caps => Some caps)
  = Some [(1%nat, value)].
Proof.
  intros Ha Hw1 Hw2 Hpunct Hne Hvalue Hhead Htail.
  assert (Hspace : stops is_space (value ++ tail) = true
                   /\ stops (fun c => Ascii.eqb c ":" || Ascii.eqb c "-") (value ++ tail) = true).
  { destruct value as [|v value]; [congruence|]. simpl in *.
    apply negb_true_iff in Hhead.
    apply orb_false_iff in Hhead as [Hhead Hminus].
    apply orb_false_iff in Hhead as [Hspace Hcolon].
    now rewrite Hspace, Hcolon, Hminus. }
  destruct Hspace as [Hspace Hpunct_stop].
  unfold edu_re. cbn [run]. rewrite (run_ilit "qualification" a _ _ _ Ha).
  assert (Hgroup : run (plus (fun c => negb (Ascii.eqb c "010" || Ascii.eqb c ",")))
                       (value ++ tail) []
                       (fun rest caps' =>
                          Some ((1%nat, first_bytes (String.length (value ++ tail)
                                                     - String.length rest) (value ++ tail))
                                :: caps'))
                   = Some [(1%nat, value)]).
  { apply plus_takes_all; [exact Hne | exact Hvalue | exact Htail |].
    now rewrite first_bytes_append. }
  destruct Hpunct as [-> | [-> | ->]].
  - change (ws1 ++ "" ++ ws2 ++ value ++ tail)%string
      with (ws1 ++ ws2 ++ value ++ tail)%string.
    rewrite <- append_assoc.
    apply many_takes_all; [now rewrite all_chars_append, Hw1, Hw2 | exact Hspace |].
    rewrite run_opt_skipped by exact Hpunct_stop.
    apply (many_takes_all _ _ "" (value ++ tail)); [reflexivity | exact Hspace |].
    exact Hgroup.
  - apply many_takes_all; [exact Hw1 | reflexivity |].
    apply run_opt_taken; [reflexivity|].
    apply many_takes_all; [exact Hw2 | exact Hspace |].
    exact Hgroup.
  - apply many_takes_all; [exact Hw1 | reflexivity |].
    apply run_opt_taken; [reflexivity|].
    apply many_takes_all; [exact Hw2 | exact Hspace |].
    exact Hgroup.
Qed.

(** X17: a qualification is reported as written: when the first [q] of the
    job description starts the word qualification, in any case, followed
    by blanks or not, a colon, a hyphen or neither, blanks or not, and a
    text that runs to the end of the line, a comma or the end of the job
    description, the qualification of the summary is that text without
    the blanks around it. *)
Theorem jd_qualification_found :
  forall pre a ws1 punct ws2 value tail,
    all_chars (fun c => is_ascii c && negb (Ascii.eqb (lower_char c) "q")) pre = true ->
    lower a = "qualification" ->
    all_chars is_space ws1 = true -> all_chars is_space ws2 = true ->
    punct = "" \/ punct = ":" \/ punct = "-" ->
    value <> "" -> all_chars is_ascii value = true ->
    all_chars (fun c => negb (Ascii.eqb c "010" || Ascii.eqb c ",")) value = true ->
    stops (fun c => is_space c || Ascii.eqb c ":" || Ascii.eqb c "-") value = true ->
    stops (fun c => negb (Ascii.eqb c "010" || Ascii.eqb c ",")) tail = true ->
    jd_qualification (pre ++ a ++ ws1 ++ punct ++ ws2 ++ value ++ tail) = strip value.
Proof.
  intros pre a ws1 punct ws2 value tail Hpre Ha Hw1 Hw2 Hpunct Hne _ Hvalue Hhead Htail.
  unfold jd_qualification, extract_comparison_data. cbn [snd].
  rewrite search_skips.
  - now rewrite (search_here _ _ _ (run_edu a ws1 punct ws2 value tail
                                      Ha Hw1 Hw2 Hpunct Hne Hvalue Hhead Htail)).
  - intros x t -> Ht. unfold edu_re. cbn [run]. apply run_ilit_fails.
    rewrite all_chars_append in Hpre. apply andb_true_iff in Hpre as [_ Hpre].
    destruct t as [|c t]; [congruence|]. cbn [all_chars] in Hpre.
    apply andb_true_iff in Hpre as [Hc _]. apply andb_true_iff in Hc as [_ Hc].
    apply negb_true_iff in Hc.
    change (lower "qualification") with "qualification".
    cbn [String.append lower startswith]. now rewrite Hc.
Qed.

(** ** The insertion sort is a sort *)

Lemma insert_desc_perm k i l :
  Permutation (insert_desc k i l) ((k, i) :: l).
Proof.
  induction l as [|[k' i'] l IH]; simpl; [apply Permutation_refl|].
  destruct (k' <=? k)%Z; [apply Permutation_refl|].
  eapply Permutation_trans; [apply perm_skip, IH | apply perm_swap].
Qed.

Lemma insert_desc_sorted k i l :
  StronglySorted Z.ge (map fst l) ->
  StronglySorted Z.ge (map fst (insert_desc k i l)).
Proof.
  induction l as [|[k' i'] l IH]; simpl; intros Hs.
  - repeat constructor.
  - inversion Hs as [|? ? Hs' Hall]; subst.
    destruct (k' <=? k)%Z eqn:Hcmp; simpl.
    + constructor; [exact Hs|].
      assert (Hk : k' <= k) by lia.
      constructor; [lia|].
      eapply Forall_impl; [|exact Hall]. simpl. intros; lia.
    + assert (Hk : k <= k') by lia.
      constructor; [now apply IH|].
      eapply Permutation_Forall;
        [apply Permutation_sym, Permutation_map, insert_desc_perm|].
      simpl. constructor; [lia | exact Hall].
Qed.

Lemma fold_insert_perm pairs :
  Permutation
    (fold_right (fun p acc => insert_desc (fst p) (snd p) acc) [] pairs)
    pairs.
Proof.
  induction pairs as [|[k i] pairs IH]; simpl; [constructor|].
  eapply Permutation_trans; [apply insert_desc_perm | now apply perm_skip].
Qed.

Lemma fold_insert_sorted pairs :
  StronglySorted Z.ge
    (map fst (fold_right (fun p acc => insert_desc (fst p) (snd p) acc)
                         [] pairs)).
Proof.
  induction pairs as [|[k i] pairs IH]; simpl; [constructor|].
  now apply insert_desc_sorted.
Qed.

Lemma combine_seq_positions (keys : list Z) start :
  map snd (combine keys (seq start (List.length keys))) = seq start (List.length keys).
Proof.
  revert start. induction keys as [|k keys IH]; intros start; simpl; [reflexivity|].
  now rewrite IH.
Qed.

Lemma combine_seq_keys (keys : list Z) start k i :
  In (k, i) (combine keys (seq start (List.length keys))) ->
  (start <= i)%nat /\ nth (i - start) keys 0 = k.
Proof.
  revert start. induction keys as [|k0 keys IH]; intros start; simpl; [tauto|].
  intros [H | H].
  - injection H as -> ->. now rewrite Nat.sub_diag.
  - destruct (IH _ H) as [Hle Hnth]. split; [lia|].
    replace (i - start)%nat with (S (i - S start)) by lia. exact Hnth.
Qed.

Lemma argsort_stable_sorts : sorts_descending argsort_stable.
Proof.
  intros keys. unfold argsort_stable.
  set (pairs := combine keys (seq 0 (List.length keys))).
  set (sorted := fold_right _ [] pairs).
  assert (Hp : Permutation sorted pairs) by apply fold_insert_perm.
  split.
  - rewrite (Permutation_map snd Hp). unfold pairs.
    now rewrite combine_seq_positions.
  - rewrite map_map.
    rewrite (map_ext_in _ fst); [apply fold_insert_sorted|].
    intros [k i] Hin. simpl.
    assert (Hin' : In (k, i) pairs) by (eapply Permutation_in; eassumption).
    apply combine_seq_keys in Hin' as [_ Hnth].
    now rewrite Nat.sub_0_r in Hnth.
Qed.

(** ** The conversions of text on examples

    Characters outside ASCII count as one character each; [split] and
    [strip] take a no-break space for a blank; [int] reads the digits of
    any script and skips a no-break space, but not the separators 28 to
    31, and refuses more than 4300 digits. *)

Lemma text_examples :
  chars "café" = ["c"; "a"; "f"; "é"]
  /\ len "café" = 4%nat
  /\ slice_to 3 "éàü!" = "éàü"
  /\ split ("need" ++ nbsp ++ "five" ++ nbsp ++ "years") = ["need"; "five"; "years"]
  /\ word_count ("need" ++ nbsp ++ "five" ++ nbsp ++ "years") = 3
  /\ strip (nbsp ++ " MBA " ++ nbsp) = "MBA"
  /\ join_items (JStr "café") = Some ["c"; "a"; "f"; "é"].
Proof. repeat (split; [vm_compute; reflexivity|]). vm_compute. reflexivity. Qed.

Lemma int_of_str_examples :
  int_of_str " 77 " = Some 77
  /\ int_of_str "+7_7" = Some 77
  /\ int_of_str "-077" = Some (-77)
  /\ int_of_str "٧٧" = Some 77
  /\ int_of_str "７７" = Some 77
  /\ int_of_str ("77" ++ nbsp) = Some 77
  /\ int_of_str (file_separator ++ "77") = None
  /\ int_of_str ("77" ++ file_separator) = None
  /\ int_of_str "7 7" = None
  /\ int_of_str "77_" = None
  /\ int_of_str "1e3" = None
  /\ int_of_str (repeat_text 4300 "7") <> None
  /\ int_of_str (repeat_text 4301 "7") = None
  /\ int_of_str "" = None.
Proof.
  repeat (split; [vm_compute; (reflexivity || discriminate)|]). reflexivity.
Qed.

(** ** The script on examples *)

Lemma batch_isolates_failures_witness :
  let run := run_batch decode_json plain_describe plain_repr canned_reader canned_reader
                       (canned_post example_response)
                       (inputs_for 30 []) (weights_of (inputs_for 30 [])) in
  outcome decode_json plain_describe plain_repr canned_reader canned_reader
          (canned_post example_response)
          (inputs_for 30 []) (weights_of (inputs_for 30 [])) resume_b
  = Raise "Unsupported file format"
  /\ extract_text canned_reader canned_reader resume_b = Raise "Unsupported file format"
  /\ results (run [resume_a; resume_b; resume_c]) = results (run [resume_a; resume_c])
  /\ results (run [resume_a; resume_b; resume_c])
     = [example_row "a.pdf"; example_row "c.docx"]
  /\ error_messages (run [resume_a; resume_b; resume_c])
     = ["b.txt ❌ Unsupported file format"]
  /\ LogEntry.success_count (summary (inputs_for 30 []) (run [resume_a; resume_b; resume_c])) = 2
  /\ LogEntry.failure_count (summary (inputs_for 30 []) (run [resume_a; resume_b; resume_c])) = 1.
Proof.
  intros run.
  pose proof (batch_isolates_failures decode_json plain_describe plain_repr canned_reader
                canned_reader (canned_post example_response)
                (inputs_for 30 []) (weights_of (inputs_for 30 []))) as (_ & Hiso & Hstage & Hthree).
  assert (Hb : outcome decode_json plain_describe plain_repr canned_reader canned_reader
                 (canned_post example_response)
                 (inputs_for 30 []) (weights_of (inputs_for 30 [])) resume_b
               = Raise "Unsupported file format").
  { apply Hstage. left. reflexivity. }
  split; [exact Hb|]. split; [reflexivity|].
  split; [exact (proj1 (Hiso [resume_a] resume_b [resume_c] _ Hb))|].
  apply (Hthree resume_a resume_b resume_c (example_row "a.pdf") (example_row "c.docx"));
    vm_compute; reflexivity.
Defined.

Lemma classify_sorts_and_splits_witness :
  sorts_descending argsort_stable
  /\ map score four_rows = [90; 60; 59; 60]
  /\ map score (map snd (fst (classify argsort_stable four_rows))) = [90; 60; 60]
  /\ map score (map snd (snd (classify argsort_stable four_rows))) = [59].
Proof.
  split; [apply argsort_stable_sorts|]. split; [reflexivity|].
  pose proof (classify_sorts_and_splits argsort_stable argsort_stable_sorts
                four_rows) as H.
  cbv zeta in H. destruct H as (_ & _ & _ & _ & _ & _ & _ & H).
  apply H. reflexivity.
Defined.

Lemma parse_json_response_completes_breakdown_witness :
  re_search_braces example_response = Some example_span
  /\ decode_json example_span = Ok (JDict [("name", JStr "A"); ("score", JInt 77)])
  /\ parse_json_response decode_json example_response
     = Ok [("name", JStr "A"); ("score", JInt 77);
           ("score_breakdown", JDict zero_breakdown)]
  /\ exists record,
       parse_json_response decode_json example_response = Ok record
       /\ lookup record "score_breakdown" = Some (JDict zero_breakdown).
Proof.
  pose proof (parse_json_response_completes_breakdown decode_json plain_describe plain_repr)
    as (Hspan & _ & _ & Hmissing & Hexample).
  split.
  { exact (Hspan "noise "
                  (quoted "name" ++ ":" ++ quoted "A" ++ "," ++ quoted "score" ++ ":77")%string
                  " trailing" eq_refl eq_refl). }
  split; [reflexivity|].
  split.
  { apply (proj1 (Hexample eq_refl)). }
  apply (Hmissing example_response example_span [("name", JStr "A"); ("score", JInt 77)]);
    reflexivity.
Defined.

(** A response that parses, with a score that is not a number: the file
    ends as an error message, not as a row with score 0. *)
Lemma non_numeric_score_counterexample :
  parse_json_response decode_json non_numeric_response
  = Ok [("name", JStr "A"); ("score", JStr "high");
        ("score_breakdown", JDict zero_breakdown)]
  /\ py_int (JStr "high") = None
  /\ results (run_batch decode_json plain_describe plain_repr canned_reader canned_reader
                        (canned_post non_numeric_response)
                        (inputs_for 30 [resume_a]) (weights_of (inputs_for 30 [resume_a]))
                        [resume_a]) = []
  /\ error_messages (run_batch decode_json plain_describe plain_repr canned_reader
                               canned_reader (canned_post non_numeric_response)
                               (inputs_for 30 [resume_a])
                               (weights_of (inputs_for 30 [resume_a])) [resume_a])
     = ["a.pdf ❌ cannot convert to int"].
Proof. repeat split; vm_compute; reflexivity. Qed.

Lemma score_is_int_of_parsed_score_witness :
  parse_json_response decode_json example_response
  = Ok [("name", JStr "A"); ("score", JInt 77); ("score_breakdown", JDict zero_breakdown)]
  /\ (exists row,
        result_row plain_describe plain_repr "a.pdf"
                   [("name", JStr "A"); ("score", JInt 77);
                    ("score_breakdown", JDict zero_breakdown)] = Ok row
        /\ score row = 77)
  /\ parse_json_response decode_json non_numeric_response
     = Ok [("name", JStr "A"); ("score", JStr "high");
           ("score_breakdown", JDict zero_breakdown)]
  /\ py_int (JStr "high") = None
  /\ result_row plain_describe plain_repr "a.pdf"
                [("name", JStr "A"); ("score", JStr "high");
                 ("score_breakdown", JDict zero_breakdown)]
     = Raise "cannot convert to int".
Proof.
  split; [reflexivity|].
  split.
  { pose proof (score_is_int_of_parsed_score decode_json plain_describe plain_repr
                  canned_reader canned_reader (canned_post example_response)
                  example_response _ "a.pdf" eq_refl) as H.
    cbv zeta in H. destruct H as (H & _).
    apply (H 77 []); reflexivity. }
  split; [reflexivity|]. split; [reflexivity|].
  pose proof (score_is_int_of_parsed_score decode_json plain_describe plain_repr
                canned_reader canned_reader (canned_post non_numeric_response)
                non_numeric_response _ "a.pdf" eq_refl) as H.
  cbv zeta in H. destruct H as (_ & _ & H).
  exact (proj1 (H eq_refl)).
Defined.

Lemma batch_logs_one_summary_row_witness :
  let inp := inputs_for 30 [resume_a; resume_b; resume_c] in
  let s := main decode_json plain_describe plain_repr canned_reader canned_reader
                (canned_post example_response) argsort_stable inp new_session in
  total inp = 100 /\ analyze_pressed inp = true /\ jd inp <> "" /\ uploaded_files inp <> []
  /\ List.length (data_lines (usage_log s)) = 1%nat
  /\ map LogEntry.failure_count (data_lines (usage_log s)) = [1]
  /\ map LogEntry.error_message (data_lines (usage_log s))
     = ["b.txt ❌ Unsupported file format"].
Proof.
  intros inp s.
  assert (Ht : total inp = 100) by reflexivity.
  assert (Hb : analyze_pressed inp = true) by reflexivity.
  assert (Hjd : jd inp <> "") by discriminate.
  assert (Hf : uploaded_files inp <> []) by discriminate.
  repeat (split; [assumption|]).
  pose proof (batch_logs_one_summary_row decode_json plain_describe plain_repr
                canned_reader canned_reader (canned_post example_response) argsort_stable
                inp new_session Ht Hb Hjd Hf) as H.
  cbv zeta in H. destruct H as (H & _). fold s in H. rewrite H.
  repeat split.
Defined.

(** A run in which every file succeeds writes the text [None] as its error
    message, not the empty text. *)
Lemma clean_run_counterexample :
  let inp := inputs_for 30 [resume_a; resume_c] in
  let s := main decode_json plain_describe plain_repr canned_reader canned_reader
                (canned_post example_response) argsort_stable inp new_session in
  map LogEntry.success_count (data_lines (usage_log s)) = [2]
  /\ map LogEntry.failure_count (data_lines (usage_log s)) = [0]
  /\ map LogEntry.error_message (data_lines (usage_log s)) = ["None"]
  /\ map LogEntry.error_message (data_lines (usage_log s)) <> [""].
Proof. repeat split; vm_compute; (reflexivity || discriminate). Qed.

Lemma parse_json_response_without_span_witness :
  let accents := repeat_text 600 "é" in
  ~ has_brace_span "} no object {"
  /\ parse_json_response decode_json "} no object {"
     = Raise ("❌ Could not parse JSON from Gemini:" ++ nl ++ "} no object {" ++ "...")%string
  /\ ~ has_brace_span accents
  /\ parse_json_response decode_json accents
     = Raise ("❌ Could not parse JSON from Gemini:" ++ nl ++ repeat_text 500 "é" ++ "...")%string
  /\ len accents = 600%nat
  /\ len (slice_to 500 accents) = 500%nat.
Proof.
  intros accents.
  assert (H : ~ has_brace_span "} no object {").
  { intros Hs. destruct (re_search_braces_some _ Hs) as [span Hspan]. discriminate Hspan. }
  assert (Ha : ~ has_brace_span accents).
  { intros Hs. destruct (re_search_braces_some _ Hs) as [span Hspan].
    vm_compute in Hspan. discriminate Hspan. }
  split; [exact H|].
  split; [exact (proj1 (parse_json_response_without_span decode_json "} no object {" H))|].
  split; [exact Ha|].
  destruct (parse_json_response_without_span decode_json accents Ha)
    as (Hraise & _ & _ & Hlen & _).
  split; [rewrite Hraise; vm_compute; reflexivity|].
  split; [vm_compute; reflexivity|].
  rewrite Hlen. vm_compute. reflexivity.
Defined.

(** The empty text has no span, and the message of the error carries the
    empty prefix, the only prefix the empty text has. *)
Lemma empty_text_counterexample :
  ~ has_brace_span ""
  /\ parse_json_response decode_json ""
     = Raise ("❌ Could not parse JSON from Gemini:" ++ nl ++ "" ++ "...")%string
  /\ slice_to 500 "" = ""
  /\ forall p, String.prefix p "" = true -> p = "".
Proof.
  split.
  { intros Hs. destruct (re_search_braces_some _ Hs) as [span Hspan]. discriminate Hspan. }
  split; [reflexivity|]. split; [reflexivity|].
  intros [|c p]; [reflexivity | discriminate].
Qed.

Lemma weights_guard_rejects_batch_witness :
  let inp := inputs_for 20 [resume_a; resume_b; resume_c] in
  let s := main decode_json plain_describe plain_repr canned_reader canned_reader
                (canned_post example_response) argsort_stable inp new_session in
  total inp <> 100
  /\ session_results s = None /\ usage_log s = None
  /\ events s = [StError "Total is 90%. Adjust to equal 100."].
Proof.
  intros inp s.
  assert (Ht : total inp <> 100) by discriminate.
  split; [exact Ht|].
  pose proof (weights_guard_rejects_batch decode_json plain_describe plain_repr
                canned_reader canned_reader (canned_post example_response) argsort_stable
                inp new_session Ht) as (H & _).
  fold s in H. rewrite H. repeat split.
Defined.

Lemma prepare_prompt_embeds_inputs_witness :
  "Friendly" <> "Professional" /\ "Friendly" <> "Critical" /\ "Friendly" <> "Blunt"
  /\ get tone_instruction "Friendly" (JStr "Use a professional tone.")
     = JStr "Use a professional tone."
  /\ get tone_instruction "Blunt" (JStr "Use a professional tone.")
     = JStr "Give a direct, no-nonsense assessment without sugarcoating.".
Proof.
  assert (H1 : "Friendly" <> "Professional") by discriminate.
  assert (H2 : "Friendly" <> "Critical") by discriminate.
  assert (H3 : "Friendly" <> "Blunt") by discriminate.
  repeat (split; [assumption|]).
  split.
  - pose proof (prepare_prompt_embeds_inputs plain_describe plain_repr
                  "resume" "jd" "Friendly" 40 20 10 30) as H.
    cbv zeta in H. destruct H as (prompt & _ & _ & _ & _ & H & _).
    exact (H H1 H2 H3).
  - pose proof (prepare_prompt_embeds_inputs plain_describe plain_repr
                  "resume" "jd" "Blunt" 40 20 10 30) as H.
    cbv zeta in H. destruct H as (prompt & _ & _ & _ & _ & _ & _ & _ & H).
    exact (H eq_refl).
Defined.

Lemma parse_json_response_rejects_non_object_breakdown_witness :
  re_search_braces flat_breakdown_response
  = Some ("{" ++ quoted "score_breakdown" ++ ":5}")%string
  /\ decode_json ("{" ++ quoted "score_breakdown" ++ ":5}")
     = Ok (JDict [("score_breakdown", JInt 5)])
  /\ lookup [("score_breakdown", JInt 5)] "score_breakdown" = Some (JInt 5)
  /\ (forall sb, JInt 5 <> JDict sb)
  /\ parse_json_response decode_json flat_breakdown_response
     = Raise (unparsable flat_breakdown_response).
Proof.
  assert (H : forall sb, JInt 5 <> JDict sb) by discriminate.
  split; [reflexivity|]. split; [reflexivity|]. split; [reflexivity|].
  split; [exact H|].
  exact (proj1 (parse_json_response_rejects_non_object_breakdown decode_json)
           flat_breakdown_response _ _ (JInt 5) eq_refl eq_refl eq_refl H).
Defined.

(** ** The further properties on examples *)

Lemma get_gemini_response_first_text_witness :
  get_gemini_response plain_describe (canned_post "hello") "prompt" "key" = Ok (JStr "hello")
  /\ get_gemini_response plain_describe (fun _ _ => Raise "503 Server Error") "prompt" "key"
     = Raise "503 Server Error".
Proof.
  split.
  - apply (proj1 (get_gemini_response_first_text plain_describe (canned_post "hello")
                    "prompt" "key") (JStr "hello")).
    repeat eexists; reflexivity.
  - apply (proj2 (get_gemini_response_first_text plain_describe
                    (fun _ _ => Raise "503 Server Error") "prompt" "key")).
    reflexivity.
Defined.

Lemma extract_text_extension_case_witness :
  lower ".PDF" = ".pdf" /\ lower ".Docx" = ".docx"
  /\ extract_text canned_reader canned_reader (UploadedFile.mk "CV.PDF" "text") = Ok "text"
  /\ extract_text canned_reader canned_reader (UploadedFile.mk "cv.Docx" "text") = Ok "text".
Proof.
  split; [reflexivity|]. split; [reflexivity|]. split.
  - exact (eq_trans (proj1 (extract_text_extension_case canned_reader canned_reader
                              "CV" ".PDF" "text") eq_refl) eq_refl).
  - exact (eq_trans (proj2 (extract_text_extension_case canned_reader canned_reader
                              "cv" ".Docx" "text") eq_refl) eq_refl).
Defined.

Lemma batch_calls_each_file_once_witness :
  extract_text canned_reader canned_reader resume_b = Raise "Unsupported file format"
  /\ prompt_for plain_describe plain_repr canned_reader canned_reader
                (inputs_for 30 []) (weights_of (inputs_for 30 [])) resume_b = []
  /\ extract_calls
       (batch_events
          (run_batch decode_json plain_describe plain_repr canned_reader canned_reader
                     (canned_post example_response) (inputs_for 30 [])
                     (weights_of (inputs_for 30 [])) [resume_a; resume_b; resume_c]))
     = ["a.pdf"; "b.txt"; "c.docx"].
Proof.
  pose proof (batch_calls_each_file_once decode_json plain_describe plain_repr canned_reader
                canned_reader (canned_post example_response) (inputs_for 30 [])
                (weights_of (inputs_for 30 [])) [resume_a; resume_b; resume_c]) as H.
  cbv zeta in H. destruct H as (Hcalls & _ & _ & _ & Hnone).
  split; [reflexivity|]. split; [|exact Hcalls].
  apply (Hnone resume_b "Unsupported file format"). reflexivity.
Defined.

Lemma main_idle_without_request_witness :
  let inp := rerun_of (inputs_for 30 [resume_a; resume_b; resume_c]) in
  let s := main decode_json plain_describe plain_repr canned_reader canned_reader
                (canned_post example_response) argsort_stable inp new_session in
  analyze_pressed inp = false /\ usage_log s = None.
Proof.
  intros inp s. split; [reflexivity|].
  exact (proj1 (main_idle_without_request decode_json plain_describe plain_repr
                  canned_reader canned_reader (canned_post example_response)
                  argsort_stable inp new_session (or_introl eq_refl))).
Defined.

Lemma main_replaces_results_witness :
  let inp := inputs_for 30 [resume_a; resume_b; resume_c] in
  let s := main decode_json plain_describe plain_repr canned_reader canned_reader
                (canned_post example_response) argsort_stable inp used_session in
  total inp = 100 /\ analyze_pressed inp = true /\ jd inp <> "" /\ uploaded_files inp <> []
  /\ session_results used_session = Some [scored "old.pdf" 50]
  /\ session_results s = Some [example_row "a.pdf"; example_row "c.docx"].
Proof.
  intros inp s.
  assert (Ht : total inp = 100) by reflexivity.
  assert (Hb : analyze_pressed inp = true) by reflexivity.
  assert (Hjd : jd inp <> "") by discriminate.
  assert (Hf : uploaded_files inp <> []) by discriminate.
  repeat (split; [assumption|]). split; [reflexivity|].
  pose proof (main_replaces_results decode_json plain_describe plain_repr canned_reader
                canned_reader (canned_post example_response) argsort_stable
                inp used_session Ht Hb Hjd Hf) as H.
  cbv zeta in H. destruct H as (H & _). fold s in H. rewrite H. reflexivity.
Defined.

Lemma summary_row_is_consistent_witness :
  let row := summary (inputs_for 30 [resume_a; resume_b; resume_c])
               (run_batch decode_json plain_describe plain_repr canned_reader canned_reader
                          (canned_post example_response)
                          (inputs_for 30 [resume_a; resume_b; resume_c])
                          (weights_of (inputs_for 30 [resume_a; resume_b; resume_c]))
                          [resume_a; resume_b; resume_c]) in
  0 < LogEntry.failure_count row /\ LogEntry.errors_occurred row = true.
Proof.
  intros row.
  assert (H : 0 < LogEntry.failure_count row) by reflexivity.
  split; [exact H|].
  pose proof (summary_row_is_consistent decode_json plain_describe plain_repr canned_reader
                canned_reader (canned_post example_response)
                (inputs_for 30 [resume_a; resume_b; resume_c])
                (weights_of (inputs_for 30 [resume_a; resume_b; resume_c]))) as Hrow.
  cbv zeta in Hrow. destruct Hrow as (_ & Herr & _).
  exact (proj2 Herr H).
Defined.

Lemma word_count_counts_words_witness :
  split (strip "  need five   years ") = ["need"; "five"; "years"]
  /\ word_count "  need five   years " = 3
  /\ word_count "   " = 0.
Proof.
  assert (Hword : forall w, w <> "" ->
            all_chars (fun c => is_ascii c && negb (is_space c)) w = true -> is_word w).
  { intros w Hne Hw. now split. }
  assert (Hgap : forall g, g <> "" -> all_chars is_space g = true -> is_gap g).
  { intros g Hne Hg. now split. }
  destruct (proj1 word_count_counts_words "  " "need" [(" ", "five"); ("   ", "years")] " ")
    as (Hsplit & Hcount);
    try reflexivity.
  - apply Hword; [discriminate | reflexivity].
  - constructor; [split; [apply Hgap | apply Hword]; (discriminate || reflexivity)|].
    constructor; [split; [apply Hgap | apply Hword]; (discriminate || reflexivity)|].
    constructor.
  - split; [exact Hsplit|]. split; [exact Hcount|].
    apply (proj2 word_count_counts_words). reflexivity.
Defined.

Lemma blank_jd_is_processed_witness :
  let inp := with_jd "  " (inputs_for 30 [resume_a; resume_c]) in
  let s := main decode_json plain_describe plain_repr canned_reader canned_reader
                (canned_post example_response) argsort_stable inp new_session in
  jd inp <> "" /\ all_chars is_space (jd inp) = true
  /\ exists row,
       data_lines (usage_log s) = [row] /\ LogEntry.jd_length_words row = 0.
Proof.
  intros inp s.
  assert (Hjd : jd inp <> "") by discriminate.
  split; [exact Hjd|]. split; [reflexivity|].
  destruct (blank_jd_is_processed decode_json plain_describe plain_repr canned_reader
              canned_reader (canned_post example_response) argsort_stable
              inp new_session eq_refl eq_refl ltac:(discriminate) Hjd eq_refl)
    as (row & Hlines & Hwords & _).
  exists row. split; [exact Hlines | exact Hwords].
Defined.

Lemma score_given_as_text_witness :
  parse_json_response decode_json text_score_response
  = Ok [("score", JStr " 77 "); ("score_breakdown", JDict zero_breakdown)]
  /\ Z.of_nat (String.length (str_of_int (Z.abs 77))) <= max_str_digits
  /\ exists row,
       result_row plain_describe plain_repr "a.pdf"
                  [("score", JStr " 77 "); ("score_breakdown", JDict zero_breakdown)]
       = Ok row
       /\ score row = 77.
Proof.
  assert (Hlen : Z.of_nat (String.length (str_of_int (Z.abs 77))) <= max_str_digits).
  { vm_compute. discriminate. }
  split; [reflexivity|]. split; [exact Hlen|].
  exact (score_given_as_text decode_json plain_describe plain_repr
           text_score_response _ "a.pdf" 77 " " " " []
           eq_refl Hlen eq_refl eq_refl eq_refl eq_refl).
Defined.

Lemma score_given_as_float_witness :
  let half_past_two := S754_finite false 5 (-1) in
  let response_json := [("score", JFloat half_past_two);
                        ("score_breakdown", JDict zero_breakdown)] in
  parse_json_response (canned_loads (JDict [("score", JFloat half_past_two)])) "{}"
  = Ok response_json
  /\ exists row,
       result_row plain_describe plain_repr "a.pdf" response_json = Ok row
       /\ Z.abs (score row) * 2 ^ 1 <= 5 < (Z.abs (score row) + 1) * 2 ^ 1.
Proof.
  intros half_past_two response_json. split; [reflexivity|].
  destruct (score_given_as_float (canned_loads (JDict [("score", JFloat half_past_two)]))
              plain_describe plain_repr "{}" response_json "a.pdf" false 5 (-1) []
              eq_refl eq_refl eq_refl) as (row & Hrow & _ & _ & H).
  exists row. split; [exact Hrow|]. apply H. reflexivity.
Defined.

Lemma extraction_failure_messages_witness :
  endswith (lower "b.txt") ".pdf" = false /\ endswith (lower "b.txt") ".docx" = false
  /\ error_messages
       (run_batch decode_json plain_describe plain_repr canned_reader canned_reader
                  (canned_post example_response) (inputs_for 30 [])
                  (weights_of (inputs_for 30 [])) [resume_b])
     = ["b.txt ❌ Unsupported file format"]
  /\ canned_reader (UploadedFile.mk "empty.docx" "") = Raise "cannot open empty document"
  /\ error_messages
       (run_batch decode_json plain_describe plain_repr canned_reader canned_reader
                  (canned_post example_response) (inputs_for 30 [])
                  (weights_of (inputs_for 30 [])) [UploadedFile.mk "empty.docx" ""])
     = ["empty.docx ❌ Error reading Word document: cannot open empty document"].
Proof.
  split; [reflexivity|]. split; [reflexivity|]. split.
  - exact (proj1 (extraction_failure_messages decode_json plain_describe plain_repr
                    canned_reader canned_reader (canned_post example_response)
                    (inputs_for 30 []) (weights_of (inputs_for 30 [])) resume_b)
                 eq_refl eq_refl).
  - split; [reflexivity|].
    exact (proj1 (proj2 (extraction_failure_messages decode_json plain_describe plain_repr
                           canned_reader canned_reader (canned_post example_response)
                           (inputs_for 30 []) (weights_of (inputs_for 30 []))
                           (UploadedFile.mk "empty.docx" "")))
                 "cannot open empty document" eq_refl eq_refl eq_refl).
Defined.

Lemma jd_experience_without_figures_witness :
  all_chars is_ascii "Sales manager, paints" = true
  /\ all_chars (fun c => negb (is_digit c)) "Sales manager, paints" = true
  /\ jd_experience "Sales manager, paints" = "Not specified".
Proof.
  split; [reflexivity|]. split; [reflexivity|].
  exact (jd_experience_without_figures "Sales manager, paints" eq_refl eq_refl).
Defined.

Lemma jd_qualification_not_mentioned_witness :
  contains "qualification" (lower "Sales manager with an MBA") = false
  /\ jd_qualification "Sales manager with an MBA" = "Not specified".
Proof.
  split; [reflexivity|].
  exact (jd_qualification_not_mentioned "Sales manager with an MBA" eq_refl eq_refl).
Defined.

Lemma jd_experience_range_witness :
  jd_experience "Need 5 - 8 Years in paints, 10 years overall" = "5 to 8 years"
  /\ jd_experience "between 3 TO 5years" = "3 to 5 years".
Proof.
  split.
  - apply (jd_experience_range "Need " "5" " " "-" " " "8" " " "Years"
                               " in paints, 10 years overall");
      try reflexivity; try discriminate. right. right. reflexivity.
  - apply (jd_experience_range "between " "3" " " "TO" " " "5" "" "years" "");
      try reflexivity; try discriminate. left. reflexivity.
Defined.

Lemma jd_qualification_found_witness :
  jd_qualification ("Sales role. Qualification: MBA , top school" ++ nl ++ "Apply now")
  = "MBA"
  /\ jd_qualification "Needed QUALIFICATION - B.Tech" = "B.Tech".
Proof.
  split.
  - apply (jd_qualification_found "Sales role. " "Qualification" "" ":" " " "MBA "
                                  (", top school" ++ nl ++ "Apply now"));
      try reflexivity; try discriminate. right. left. reflexivity.
  - apply (jd_qualification_found "Needed " "QUALIFICATION" " " "-" " " "B.Tech" "");
      try reflexivity; try discriminate. right. right. reflexivity.
Defined.
